(** * Herald v0.1: a shallow embedding of [src/herald.py]

    The classes [World] and [Herald] and the decision procedure
    [Game.herald_auto_decide] are modelled as pure functions over explicit
    state.  The [Herald] object holds a reference to the very [World] object
    that the [Game] also holds, and [World] is mutated only through the
    Herald ([eat]); the model therefore keeps the world inside the Herald
    state, which is exactly the aliasing of the source.

    Integers are Python integers (unbounded), modelled as [Z].  The food set
    is a Python [set] of pairs, modelled as [gset (Z * Z)].  Wall-clock
    timestamps of log entries are informational only and are not modelled. *)

From Stdlib Require Import ZArith String Ascii List Lia.
From stdpp Require Import base gmap sets strings.
Import ListNotations.
Open Scope Z_scope.

(* ------------------------------------------------------------------ *)
(** ** Decimal rendering of integers (Python's [f"{n}"]) *)

Fixpoint digits_of_N (fuel : nat) (n : N) (acc : string) : string :=
  match fuel with
  | O => acc
  | S f =>
      let acc' := String (ascii_of_N (48 + N.modulo n 10)) acc in
      if N.ltb n 10 then acc' else digits_of_N f (N.div n 10) acc'
  end.

Definition str_of_Z (z : Z) : string :=
  if z <? 0
  then String.append "-" (digits_of_N 64 (Z.to_N (- z)) EmptyString)
  else digits_of_N 64 (Z.to_N z) EmptyString.

Definition str_of_pos (x y : Z) : string :=
  String.append "(" (String.append (str_of_Z x)
    (String.append ", " (String.append (str_of_Z y) ")"))).

(* ------------------------------------------------------------------ *)
(** ** class World *)

Record World := mkWorld {
  width : Z;
  height : Z;
  food_locations : gset (Z * Z)
}.

(** [World.has_food_at]: [(x, y) in self.food_locations]. *)
Definition has_food_at (w : World) (x y : Z) : bool :=
  bool_decide ((x, y) ∈ food_locations w).

(** [World.remove_food_at]: [self.food_locations.discard((x, y))]. *)
Definition remove_food_at (w : World) (x y : Z) : World :=
  mkWorld (width w) (height w) (food_locations w ∖ {[ (x, y) ]}).

(** [World.is_valid_position]: [0 <= x < self.width and 0 <= y < self.height]. *)
Definition is_valid_position (w : World) (x y : Z) : bool :=
  (0 <=? x) && (x <? width w) && (0 <=? y) && (y <? height w).

(* ------------------------------------------------------------------ *)
(** ** class Herald *)

(** The dictionary returned by [Herald.get_status]. *)
Record Status := mkStatus {
  st_status : string;
  st_location : Z * Z;
  st_hunger : Z;
  st_hunger_desc : string;
  st_sees_food : bool
}.

(** An entry of [actions_taken] (without its wall-clock timestamp). *)
Record LogEntry := mkEntry {
  entry_type : string;
  entry_description : string;
  entry_state : Status
}.

Record Herald := mkHerald {
  world : World;
  x : Z;
  y : Z;
  hunger : Z;
  hunger_rate : Z;
  alive : bool;
  actions_taken : list LogEntry
}.

(** [Herald.__init__(world, x, y)]. *)
Definition new_herald (w : World) (x0 y0 : Z) : Herald :=
  mkHerald w x0 y0 0 5 true [].

Definition set_pos (h : Herald) (x' y' : Z) : Herald :=
  mkHerald (world h) x' y' (hunger h) (hunger_rate h) (alive h) (actions_taken h).
Definition set_hunger (h : Herald) (n : Z) : Herald :=
  mkHerald (world h) (x h) (y h) n (hunger_rate h) (alive h) (actions_taken h).
Definition set_alive (h : Herald) (b : bool) : Herald :=
  mkHerald (world h) (x h) (y h) (hunger h) (hunger_rate h) b (actions_taken h).
Definition set_world (h : Herald) (w : World) : Herald :=
  mkHerald w (x h) (y h) (hunger h) (hunger_rate h) (alive h) (actions_taken h).
Definition set_actions (h : Herald) (l : list LogEntry) : Herald :=
  mkHerald (world h) (x h) (y h) (hunger h) (hunger_rate h) (alive h) l.

(** [Herald.get_hunger_description]. *)
Definition get_hunger_description (h : Herald) : string :=
  if hunger h <? 20 then "Full"
  else if hunger h <? 40 then "Satisfied"
  else if hunger h <? 60 then "Getting hungry"
  else if hunger h <? 80 then "Very hungry"
  else "STARVING".

(** [Herald.get_status]. *)
Definition get_status (h : Herald) : Status :=
  mkStatus (if alive h then "ALIVE" else "DEAD")
           (x h, y h) (hunger h) (get_hunger_description h)
           (has_food_at (world h) (x h) (y h)).

(** [if len(self.actions_taken) > 20: self.actions_taken.pop(0)]. *)
Definition keep_last_20 (l : list LogEntry) : list LogEntry :=
  if (20 <? length l)%nat then tl l else l.

(** [Herald.log_action]: append, then drop the oldest entry beyond 20. *)
Definition log_action (h : Herald) (action_type description : string) : Herald :=
  set_actions h (keep_last_20 (actions_taken h ++
                   [mkEntry action_type description (get_status h)])).

(** [Herald.tick]. *)
Definition tick (h : Herald) : Herald :=
  if alive h then
    let h1 := set_hunger h (hunger h + hunger_rate h) in
    if 100 <=? hunger h1 then
      log_action (set_alive (set_hunger h1 100) false) "DIED" "Herald starved to death!"
    else h1
  else h.

(** [Herald.move]: returns [(success, message)] and the new state. *)
Definition move (h : Herald) (direction : string) : (bool * string) * Herald :=
  let old_x := x h in
  let old_y := y h in
  let moved :=
    if String.eqb direction "north" then Some (set_pos h (x h) (y h - 1))
    else if String.eqb direction "south" then Some (set_pos h (x h) (y h + 1))
    else if String.eqb direction "east" then Some (set_pos h (x h + 1) (y h))
    else if String.eqb direction "west" then Some (set_pos h (x h - 1) (y h))
    else None in
  match moved with
  | None => ((false, "Invalid direction"), h)
  | Some h1 =>
      if negb (is_valid_position (world h1) (x h1) (y h1)) then
        ((false, "Can't move there - out of bounds"), set_pos h1 old_x old_y)
      else
        let h2 := log_action h1 "MOVE"
                    (String.append "Moved " (String.append direction
                       (String.append " to " (str_of_pos (x h1) (y h1))))) in
        ((true, String.append "Moved " direction), h2)
  end.

(** [Herald.eat]. *)
Definition eat (h : Herald) : (bool * string) * Herald :=
  if has_food_at (world h) (x h) (y h) then
    let h1 := set_world h (remove_food_at (world h) (x h) (y h)) in
    let h2 := set_hunger h1 (Z.max 0 (hunger h1 - 50)) in
    let h3 := log_action h2 "EAT"
                (String.append "Ate food at "
                  (String.append (str_of_pos (x h2) (y h2))
                    (String.append ". Hunger now: " (str_of_Z (hunger h2))))) in
    ((true, "Ate food! Yum!"), h3)
  else ((false, "No food here to eat"), h).

(** The [wait] command of [Game.process_command]. *)
Definition wait (h : Herald) : Herald :=
  log_action h "WAIT" "Herald waited".

(** Python's [range(a, b)] over integers. *)
Definition zrange (a b : Z) : list Z :=
  map (fun i => a + Z.of_nat i) (seq 0 (Z.to_nat (b - a))).

(** [distance < nearest_distance], where [None] is [float('inf')]. *)
Definition lt_dist (d : Z) (nearest_distance : option Z) : bool :=
  match nearest_distance with
  | None => true
  | Some n => d <? n
  end.

(** The body of the inner loop of [Herald.look_around]: the loop state is
    [(nearest_food, nearest_distance)]. *)
Definition look_step (h : Herald) (acc : option (Z * Z) * option Z) (dx dy : Z)
  : option (Z * Z) * option Z :=
  let check_x := x h + dx in
  let check_y := y h + dy in
  if negb (is_valid_position (world h) check_x check_y) then acc
  else if has_food_at (world h) check_x check_y then
    let distance := Z.abs dx + Z.abs dy in
    if lt_dist distance (snd acc) then (Some (check_x, check_y), Some distance)
    else acc
  else acc.

(** [Herald.look_around(vision_range)]. *)
Definition look_around (h : Herald) (vision_range : Z) : option (Z * Z) :=
  fst (fold_left
         (fun acc dx =>
            fold_left (fun acc' dy => look_step h acc' dx dy)
                      (zrange (- vision_range) (vision_range + 1)) acc)
         (zrange (- vision_range) (vision_range + 1))
         (None, None)).

(** [Herald.move_toward]: [None] is the implicit [return None] of the
    final [elif] chain (unreachable once [dx = dy = 0] has returned). *)
Definition move_toward (h : Herald) (target_x target_y : Z)
  : option (bool * string) * Herald :=
  let dx := target_x - x h in
  let dy := target_y - y h in
  let call d := let '(r, h') := move h d in (Some r, h') in
  if (dx =? 0) && (dy =? 0) then (Some (false, "Already here"), h)
  else if Z.abs dy <? Z.abs dx then
    (if 0 <? dx then call "east" else call "west")
  else if Z.abs dx <? Z.abs dy then
    (if 0 <? dy then call "south" else call "north")
  else if negb (dx =? 0) then
    (if 0 <? dx then call "east" else call "west")
  else if negb (dy =? 0) then
    (if 0 <? dy then call "south" else call "north")
  else (None, h).

(* ------------------------------------------------------------------ *)
(** ** Game.herald_auto_decide *)

Section AutoDecide.
(** The global generator of Python's [random] module, as an explicit
    source.  [randbelow n] is [random._randbelow(n)] (used by
    [random.choice]); [random53] yields the integer [k] of
    [random.random() = k / 2^53]. *)
Variable Rng : Type.
Variable randbelow : Z -> Rng -> Z * Rng.
Variable random53 : Rng -> Z * Rng.

Definition directions : list string := ["north"; "south"; "east"; "west"].

(** [random.choice(seq)]. *)
Definition random_choice (l : list string) (r : Rng) : string * Rng :=
  let '(i, r') := randbelow (Z.of_nat (length l)) r in
  (nth (Z.to_nat i) l EmptyString, r').

(** The double [0.7] is exactly [6305039478318694 / 2^53], so
    [random.random() < 0.7] is [k < 6305039478318694]. *)
Definition random_lt_07 (r : Rng) : bool * Rng :=
  let '(k, r') := random53 r in (k <? 6305039478318694, r').

Definition herald_auto_decide (r : Rng) (h : Herald) : Herald * Rng :=
  let status := get_status h in
  if st_sees_food status && (30 <? st_hunger status) then
    (snd (eat h), r)
  else if 40 <? st_hunger status then
    match look_around h 2 with
    | Some (food_x, food_y) => (snd (move_toward h food_x food_y), r)
    | None =>
        let '(direction, r1) := random_choice directions r in
        (snd (move h direction), r1)
    end
  else
    let '(b, r1) := random_lt_07 r in
    if b then
      let '(direction, r2) := random_choice directions r1 in
      (snd (move h direction), r2)
    else (log_action h "WAIT" "Herald rested", r1).
End AutoDecide.

(* ------------------------------------------------------------------ *)
(** ** Sequences of operations on a Herald *)

Inductive op :=
| OpTick
| OpMove (direction : string)
| OpEat
| OpWait
| OpMoveToward (target_x target_y : Z).

Definition step_op (o : op) (h : Herald) : Herald :=
  match o with
  | OpTick => tick h
  | OpMove d => snd (move h d)
  | OpEat => snd (eat h)
  | OpWait => wait h
  | OpMoveToward tx ty => snd (move_toward h tx ty)
  end.

Definition run_ops (ops : list op) (h : Herald) : Herald :=
  fold_left (fun h o => step_op o h) ops h.

(** The session's world: [Game.reset_world] builds a 10x10 world. *)
Definition world10 (food : list (Z * Z)) : World :=
  mkWorld 10 10 (list_to_set food).

(* ------------------------------------------------------------------ *)
(** ** World construction and the Game controller *)

(** The Game draws from the same global [random] generator as the
    decision procedure: [randint a b] is [random.randint(a, b)]. *)
Section GameModel.
Variable Rng : Type.
Variable randint : Z -> Z -> Rng -> Z * Rng.
Variable randbelow : Z -> Rng -> Z * Rng.
Variable random53 : Rng -> Z * Rng.

(** The loop of [World.spawn_initial_food], [n] iterations left. *)
Fixpoint spawn_loop (n : nat) (w : World) (r : Rng) : World * Rng :=
  match n with
  | O => (w, r)
  | S n' =>
      let '(fx, r1) := randint 0 (width w - 1) r in
      let '(fy, r2) := randint 0 (height w - 1) r1 in
      spawn_loop n' (mkWorld (width w) (height w) (food_locations w ∪ {[ (fx, fy) ]})) r2
  end.

(** [World.spawn_initial_food]: [for _ in range(8)]. *)
Definition spawn_initial_food (w : World) (r : Rng) : World * Rng :=
  spawn_loop 8 w r.

(** [World.__init__(width, height)]. *)
Definition new_world (wd ht : Z) (r : Rng) : World * Rng :=
  spawn_initial_food (mkWorld wd ht ∅) r.

(** The attributes of [Game]; [self.world] is the very object held by
    [self.herald], so it is [world (gherald g)]. *)
Record Game := mkGame {
  running : bool;
  auto_mode : bool;
  step_mode : bool;
  tick_count : Z;
  gherald : Herald
}.

Definition set_gherald (g : Game) (h : Herald) : Game :=
  mkGame (running g) (auto_mode g) (step_mode g) (tick_count g) h.

(** [Game.reset_world]: a fresh 10x10 world, the Herald at (5, 5), the
    tick counter and auto mode cleared ([step_mode] is left alone). *)
Definition reset_world (g : Game) (r : Rng) : Game * Rng :=
  let '(w, r1) := new_world 10 10 r in
  (mkGame (running g) false (step_mode g) 0 (new_herald w 5 5), r1).

(** [Game.__init__]. *)
Definition new_game (r : Rng) : Game * Rng :=
  let '(w, r1) := new_world 10 10 r in
  (mkGame true false false 0 (new_herald w 5 5), r1).

(** [Game.process_command], given [parts = command.lower().strip().split()];
    printing is not modelled. *)
Definition process_command (g : Game) (parts : list string) (r : Rng) : Game * Rng :=
  match parts with
  | [] => (g, r)
  | cmd :: rest =>
      if String.eqb cmd "move" then
        match rest with
        | [] => (g, r)
        | direction :: _ => (set_gherald g (snd (move (gherald g) direction)), r)
        end
      else if String.eqb cmd "eat" then (set_gherald g (snd (eat (gherald g))), r)
      else if String.eqb cmd "wait" then
        (set_gherald g (log_action (gherald g) "WAIT" "Herald waited"), r)
      else if String.eqb cmd "status" then (g, r)
      else if String.eqb cmd "auto" then
        (mkGame (running g) true (step_mode g) (tick_count g) (gherald g), r)
      else if String.eqb cmd "step" then
        (mkGame (running g) (auto_mode g) true (tick_count g) (gherald g), r)
      else if String.eqb cmd "stop" then
        (mkGame (running g) false false (tick_count g) (gherald g), r)
      else if String.eqb cmd "reset" then reset_world g r
      else if String.eqb cmd "help" then (g, r)
      else if String.eqb cmd "quit" then
        (mkGame false (auto_mode g) (step_mode g) (tick_count g) (gherald g), r)
      else (g, r)
  end.

(** What one pass of the [while] loop of [Game.run] reads: whether a key
    line "x" was waiting ([check_for_stop_command], auto mode), the line
    typed in step mode after [.strip().lower()], the words of the manual
    command, and the answer to "Play again?" after [.lower().strip()]. *)
Record TurnInput := mkTurnInput {
  in_stop_key : bool;
  in_step_line : string;
  in_command : list string;
  in_replay : string
}.

(** The action part of one pass of the loop. *)
Definition turn_action (g : Game) (i : TurnInput) (r : Rng) : Game * Rng :=
  if auto_mode g then
    if in_stop_key i then
      (mkGame (running g) false (step_mode g) (tick_count g) (gherald g), r)
    else
      let '(h, r1) := herald_auto_decide Rng randbelow random53 r (gherald g) in
      (set_gherald g h, r1)
  else if step_mode g then
    if String.eqb (in_step_line i) "stop" then
      (mkGame (running g) (auto_mode g) false (tick_count g) (gherald g), r)
    else
      let '(h, r1) := herald_auto_decide Rng randbelow random53 r (gherald g) in
      (set_gherald g h, r1)
  else process_command g (in_command i) r.

(** One pass of the loop of [Game.run]: the action, the end-of-turn tick,
    and the death handling; the boolean is [false] on [break]. *)
Definition run_turn (g : Game) (i : TurnInput) (r : Rng) : Game * Rng * bool :=
  let '(g1, r1) := turn_action g i r in
  let g2 := mkGame (running g1) (auto_mode g1) (step_mode g1)
                   (tick_count g1 + 1) (tick (gherald g1)) in
  if negb (alive (gherald g2)) then
    if String.eqb (in_replay i) "yes" || String.eqb (in_replay i) "y;" then
      let '(g3, r3) := reset_world g2 r1 in (g3, r3, true)
    else (g2, r1, false)
  else (g2, r1, true).

(** The loop [while self.running and self.herald.alive], fed one input
    per pass. *)
Fixpoint run_loop (inputs : list TurnInput) (g : Game) (r : Rng) : Game * Rng :=
  match inputs with
  | [] => (g, r)
  | i :: rest =>
      if running g && alive (gherald g) then
        let '(g1, r1, continue) := run_turn g i r in
        if continue then run_loop rest g1 r1 else (g1, r1)
      else (g, r)
  end.
End GameModel.

(* ------------------------------------------------------------------ *)
(** ** Readings of the specification (compared with the code below) *)

(** The spec's unit offsets: north = y-1, south = y+1, east = x+1,
    west = x-1; any other token is not a direction. *)
Definition spec_unit_step (direction : string) (p : Z * Z) : option (Z * Z) :=
  let '(px, py) := p in
  if String.eqb direction "north" then Some (px, py - 1)
  else if String.eqb direction "south" then Some (px, py + 1)
  else if String.eqb direction "east" then Some (px + 1, py)
  else if String.eqb direction "west" then Some (px - 1, py)
  else None.

(** The spec's axis choice for [moveToward]: the horizontal axis when its
    delta is strictly larger, or on a tie when [dx <> 0]; the vertical
    axis otherwise; the step goes toward the target. *)
Definition spec_toward_direction (dx dy : Z) : string :=
  if (Z.abs dy <? Z.abs dx) || ((Z.abs dx =? Z.abs dy) && negb (dx =? 0))
  then (if 0 <? dx then "east" else "west")
  else (if 0 <? dy then "south" else "north").

(* ------------------------------------------------------------------ *)
(** ** Frame lemmas *)

Ltac unfold_setters :=
  unfold set_pos, set_hunger, set_alive, set_world, set_actions in *.

Lemma set_pos_same (h : Herald) : set_pos h (x h) (y h) = h.
Proof. destruct h; reflexivity. Qed.

Lemma set_pos_twice (h : Herald) a b c d :
  set_pos (set_pos h a b) c d = set_pos h c d.
Proof. reflexivity. Qed.

(** [log_action] only touches the history. *)
Lemma log_action_frame (h : Herald) t d :
  exists l, log_action h t d = set_actions h l.
Proof. eexists; reflexivity. Qed.

(** [move] either leaves the state as it was, or moves to a valid cell
    of the same world and rewrites the history only. *)
Lemma move_shape (h : Herald) (d : string) :
  snd (move h d) = h \/
  exists x' y' l, snd (move h d) = set_actions (set_pos h x' y') l
                  /\ is_valid_position (world h) x' y' = true.
Proof.
  unfold move.
  destruct (String.eqb d "north"), (String.eqb d "south"),
           (String.eqb d "east"), (String.eqb d "west"); cbn -[is_valid_position];
  try (left; reflexivity);
  match goal with
  | |- context [is_valid_position ?w ?a ?b] =>
      destruct (is_valid_position w a b) eqn:E; cbn -[is_valid_position];
      [right; do 3 eexists; split; [reflexivity | exact E]
      | left; clear E; destruct h; reflexivity]
  end.
Qed.

Lemma move_toward_shape (h : Herald) tx ty :
  snd (move_toward h tx ty) = h \/
  exists d, snd (move_toward h tx ty) = snd (move h d).
Proof.
  unfold move_toward.
  repeat match goal with
  | |- context [if ?b then _ else _] => destruct b
  | |- context [let '(_, _) := move h ?d in _] =>
      right; exists d; destruct (move h d); reflexivity
  end; left; reflexivity.
Qed.

(** [eat] either keeps the state, or removes the food underfoot and lowers hunger. *)
Lemma eat_shape (h : Herald) :
  snd (eat h) = h \/
  (has_food_at (world h) (x h) (y h) = true /\
   exists l, snd (eat h) =
     set_actions (set_hunger (set_world h (remove_food_at (world h) (x h) (y h)))
                             (Z.max 0 (hunger h - 50))) l).
Proof.
  unfold eat. destruct (has_food_at _ _ _) eqn:E; [right | left; reflexivity].
  split; [reflexivity | eexists; reflexivity].
Qed.

Lemma tick_shape (h : Herald) :
  (alive h = false /\ tick h = h) \/
  (alive h = true /\ hunger h + hunger_rate h < 100 /\
   tick h = set_hunger h (hunger h + hunger_rate h)) \/
  (alive h = true /\ 100 <= hunger h + hunger_rate h /\
   exists l, tick h = set_actions (set_alive (set_hunger h 100) false) l).
Proof.
  unfold tick. destruct (alive h) eqn:A; [right | left; auto].
  cbn [hunger set_hunger].
  destruct (100 <=? hunger h + hunger_rate h) eqn:E.
  - right. apply Z.leb_le in E. repeat split; auto. eexists; reflexivity.
  - left. apply Z.leb_gt in E. auto.
Qed.

(** What every operation keeps: the world's dimensions, the hunger rate,
    and no food ever appears. *)
Lemma step_op_frame (o : op) (h : Herald) :
  width (world (step_op o h)) = width (world h) /\
  height (world (step_op o h)) = height (world h) /\
  hunger_rate (step_op o h) = hunger_rate h /\
  food_locations (world (step_op o h)) ⊆ food_locations (world h).
Proof.
  assert (Hm : forall d, width (world (snd (move h d))) = width (world h) /\
                height (world (snd (move h d))) = height (world h) /\
                hunger_rate (snd (move h d)) = hunger_rate h /\
                food_locations (world (snd (move h d))) ⊆ food_locations (world h)).
  { intros d. destruct (move_shape h d) as [-> | (x' & y' & l & -> & _)];
      repeat split; set_solver. }
  destruct o as [| d | | | tx ty]; cbn [step_op].
  - destruct (tick_shape h) as [(_ & ->) | [(_ & _ & ->) | (_ & _ & l & ->)]];
      repeat split; set_solver.
  - apply Hm.
  - destruct (eat_shape h) as [-> | (_ & l & ->)]; repeat split; set_solver.

  - unfold wait, log_action. repeat split; set_solver.
  - destruct (move_toward_shape h tx ty) as [-> | (d & ->)];
      [repeat split; set_solver | apply Hm].
Qed.

(** The position is valid after every operation if it was before. *)
Lemma step_op_valid (o : op) (h : Herald) :
  is_valid_position (world h) (x h) (y h) = true ->
  is_valid_position (world (step_op o h)) (x (step_op o h)) (y (step_op o h)) = true.
Proof.
  intros V.
  assert (Hm : forall d, is_valid_position (world (snd (move h d)))
                 (x (snd (move h d))) (y (snd (move h d))) = true).
  { intros d. destruct (move_shape h d) as [-> | (x' & y' & l & -> & V')];
      [exact V | exact V']. }
  destruct o as [| d | | | tx ty]; cbn [step_op].
  - destruct (tick_shape h) as [(_ & ->) | [(_ & _ & ->) | (_ & _ & l & ->)]];
      exact V.
  - apply Hm.
  - destruct (eat_shape h) as [-> | (_ & l & ->)]; exact V.
  - exact V.
  - destruct (move_toward_shape h tx ty) as [-> | (d & ->)]; [exact V | apply Hm].
Qed.

(** With the constructor's hunger rate, hunger stays within [0, 100]. *)
Lemma step_op_hunger (o : op) (h : Herald) :
  hunger_rate h = 5 -> 0 <= hunger h <= 100 ->
  0 <= hunger (step_op o h) <= 100.
Proof.
  intros R H.
  assert (Hm : forall d, hunger (snd (move h d)) = hunger h).
  { intros d. destruct (move_shape h d) as [-> | (x' & y' & l & -> & _)];
      reflexivity. }
  destruct o as [| d | | | tx ty]; cbn [step_op].
  - destruct (tick_shape h) as [(_ & ->) | [(_ & L & ->) | (_ & _ & l & ->)]];
      cbn; lia.
  - rewrite Hm; exact H.
  - destruct (eat_shape h) as [-> | (_ & l & ->)]; cbn; lia.
  - exact H.
  - destruct (move_toward_shape h tx ty) as [-> | (d & ->)];
      [exact H | rewrite Hm; exact H].
Qed.

Lemma run_ops_cons (o : op) (ops : list op) (h : Herald) :
  run_ops (o :: ops) h = run_ops ops (step_op o h).
Proof. reflexivity. Qed.

Lemma run_ops_frame (ops : list op) (h : Herald) :
  width (world (run_ops ops h)) = width (world h) /\
  height (world (run_ops ops h)) = height (world h) /\
  hunger_rate (run_ops ops h) = hunger_rate h /\
  food_locations (world (run_ops ops h)) ⊆ food_locations (world h).
Proof.
  revert h. induction ops as [| o ops IH]; intros h.
  - repeat split; set_solver.
  - rewrite run_ops_cons.
    destruct (IH (step_op o h)) as (W & Hh & R & F).
    destruct (step_op_frame o h) as (W' & Hh' & R' & F').
    repeat split; [congruence | congruence | congruence | set_solver].
Qed.

Lemma run_ops_valid (ops : list op) (h : Herald) :
  is_valid_position (world h) (x h) (y h) = true ->
  is_valid_position (world (run_ops ops h)) (x (run_ops ops h)) (y (run_ops ops h)) = true.
Proof.
  revert h. induction ops as [| o ops IH]; intros h V; [exact V|].
  rewrite run_ops_cons. apply IH, step_op_valid, V.
Qed.

Lemma run_ops_hunger (ops : list op) (h : Herald) :
  hunger_rate h = 5 -> 0 <= hunger h <= 100 ->
  0 <= hunger (run_ops ops h) <= 100.
Proof.
  revert h. induction ops as [| o ops IH]; intros h R H; [exact H|].
  rewrite run_ops_cons. apply IH.
  - destruct (step_op_frame o h) as (_ & _ & R' & _). congruence.
  - apply step_op_hunger; assumption.
Qed.

Lemma move_alive (h : Herald) (d : string) : alive (snd (move h d)) = alive h.
Proof. destruct (move_shape h d) as [-> | (x' & y' & l & -> & _)]; reflexivity. Qed.

Lemma eat_alive (h : Herald) : alive (snd (eat h)) = alive h.
Proof. destruct (eat_shape h) as [-> | (_ & l & ->)]; reflexivity. Qed.

Lemma move_toward_alive (h : Herald) tx ty :
  alive (snd (move_toward h tx ty)) = alive h.
Proof.
  destruct (move_toward_shape h tx ty) as [-> | (d & ->)];
    [reflexivity | apply move_alive].
Qed.

(** What the claims about death look at: position, hunger and food. *)
Definition core (h : Herald) : Z * Z * Z * gset (Z * Z) :=
  (x h, y h, hunger h, food_locations (world h)).

(** Scenario A's session: a 10x10 world, the Herald at (5, 5). *)
Definition scenario_A (n : nat) : Herald :=
  Nat.iter n tick (new_herald (world10 []) 5 5).

(* ------------------------------------------------------------------ *)
(** ** Construction, bounds and hunger *)

(** C10: [Herald.__init__] validates nothing: whatever the world and the
    pair [(x, y)], the new Herald is alive, has hunger 0, an empty history,
    and stands exactly at [(x, y)]; in particular an out-of-bounds start
    such as [(-1, 0)] gives a living Herald outside the grid, so the bounds
    invariant needs an in-bounds start. *)
Theorem new_herald_unchecked (w : World) (x0 y0 : Z) :
  alive (new_herald w x0 y0) = true /\
  hunger (new_herald w x0 y0) = 0 /\
  actions_taken (new_herald w x0 y0) = [] /\
  (x (new_herald w x0 y0), y (new_herald w x0 y0)) = (x0, y0) /\
  world (new_herald w x0 y0) = w /\
  (alive (new_herald w (-1) 0) = true /\
   is_valid_position (world (new_herald w (-1) 0))
     (x (new_herald w (-1) 0)) (y (new_herald w (-1) 0)) = false).
Proof. repeat split. Qed.

(** C3: from an in-bounds start, after any sequence of operations, a
    living Herald stands inside the grid. *)
Theorem bounds_invariant (w : World) (x0 y0 : Z) (ops : list op) :
  is_valid_position w x0 y0 = true ->
  alive (run_ops ops (new_herald w x0 y0)) = true ->
  0 <= x (run_ops ops (new_herald w x0 y0)) < width w /\
  0 <= y (run_ops ops (new_herald w x0 y0)) < height w.
Proof.
  intros V _.
  pose proof (run_ops_valid ops (new_herald w x0 y0) V) as V'.
  destruct (run_ops_frame ops (new_herald w x0 y0)) as (W & Hh & _).
  cbn [world new_herald] in W, Hh.
  unfold is_valid_position in V'. rewrite W, Hh in V'.
  repeat rewrite Bool.andb_true_iff in V'.
  rewrite Z.leb_le, !Z.ltb_lt, Z.leb_le in V'. lia.
Qed.

Lemma bounds_invariant_witness :
  is_valid_position (world10 [(6, 5)]) 5 5 = true /\
  alive (run_ops [OpMove "east"; OpTick; OpEat; OpWait; OpMoveToward 0 0; OpMove "up"]
           (new_herald (world10 [(6, 5)]) 5 5)) = true /\
  0 <= x (run_ops [OpMove "east"; OpTick; OpEat; OpWait; OpMoveToward 0 0; OpMove "up"]
            (new_herald (world10 [(6, 5)]) 5 5)) < width (world10 [(6, 5)]) /\
  0 <= y (run_ops [OpMove "east"; OpTick; OpEat; OpWait; OpMoveToward 0 0; OpMove "up"]
            (new_herald (world10 [(6, 5)]) 5 5)) < height (world10 [(6, 5)]).
Proof.
  split; [reflexivity|]. split; [reflexivity|].
  apply bounds_invariant; reflexivity.
Defined.

(** C4: from a freshly constructed Herald (hunger 0), hunger stays in
    [0, 100] after any sequence of ticks, meals and other operations. *)
Theorem hunger_clamp (w : World) (x0 y0 : Z) (ops : list op) :
  0 <= hunger (run_ops ops (new_herald w x0 y0)) <= 100.
Proof. apply run_ops_hunger; cbn; lia. Qed.

Ltac zbool_goal :=
  repeat match goal with
  | |- (_ <=? _) = true => apply Z.leb_le
  | |- (_ <? _) = true => apply Z.ltb_lt
  end.

Ltac zbool :=
  repeat match goal with
  | H : (_ =? _) = true |- _ => apply Z.eqb_eq in H
  | H : (_ =? _) = false |- _ => apply Z.eqb_neq in H
  | H : (_ <? _) = true |- _ => apply Z.ltb_lt in H
  | H : (_ <? _) = false |- _ => apply Z.ltb_ge in H
  | H : (_ <=? _) = true |- _ => apply Z.leb_le in H
  | H : (_ <=? _) = false |- _ => apply Z.leb_gt in H
  end.

Lemma has_food_at_subset (w w' : World) (px py : Z) :
  food_locations w' ⊆ food_locations w ->
  has_food_at w px py = false -> has_food_at w' px py = false.
Proof.
  unfold has_food_at. intros S H.
  apply bool_decide_eq_false in H. apply bool_decide_eq_false. set_solver.
Qed.

(* ------------------------------------------------------------------ *)
(** ** move, eat, move_toward *)

(** C5: [move] rejects an unknown token with "Invalid direction" and
    changes nothing; rejects an out-of-bounds candidate with the
    out-of-bounds message and leaves the state (position included) as it
    was; otherwise moves by exactly the unit offset and appends a MOVE
    entry (the history keeping its last 20 entries).  In particular a
    Herald at (0, 0) cannot move north. *)
Theorem move_contract (h : Herald) (d : string) :
  match spec_unit_step d (x h, y h) with
  | None => move h d = ((false, "Invalid direction"), h)
  | Some (cx, cy) =>
      if is_valid_position (world h) cx cy then
        fst (fst (move h d)) = true /\
        (x (snd (move h d)), y (snd (move h d))) = (cx, cy) /\
        world (snd (move h d)) = world h /\
        hunger (snd (move h d)) = hunger h /\
        alive (snd (move h d)) = alive h /\
        exists e, entry_type e = "MOVE" /\ st_location (entry_state e) = (cx, cy) /\
          actions_taken (snd (move h d)) = keep_last_20 (actions_taken h ++ [e])
      else move h d = ((false, "Can't move there - out of bounds"), h)
  end /\
  (forall w : World, move (new_herald w 0 0) "north" =
     ((false, "Can't move there - out of bounds"), new_herald w 0 0)).
Proof.
  split.
  - unfold spec_unit_step, move.
    destruct (String.eqb d "north"), (String.eqb d "south"),
             (String.eqb d "east"), (String.eqb d "west");
      cbn -[is_valid_position]; try reflexivity;
    match goal with
    | |- context [is_valid_position ?w ?a ?b] =>
        destruct (is_valid_position w a b) eqn:V; cbn -[is_valid_position];
        [repeat split; eexists; repeat split; reflexivity
        | f_equal; destruct h; reflexivity]
    end.
  - intros w. unfold move, is_valid_position. cbn. destruct (0 <? width w); reflexivity.
Qed.

(** C6: [eat] succeeds exactly when there is food under the Herald; then
    that food is removed (and never comes back under any later operations),
    hunger drops by 50 floored at 0, and the position and life are kept;
    otherwise it answers "No food here to eat", changes nothing, and a
    second call gives the identical answer. *)
Theorem eat_contract (h : Herald) :
  fst (fst (eat h)) = has_food_at (world h) (x h) (y h) /\
  (if has_food_at (world h) (x h) (y h) then
     snd (fst (eat h)) = "Ate food! Yum!" /\
     food_locations (world (snd (eat h))) = food_locations (world h) ∖ {[(x h, y h)]} /\
     has_food_at (world (snd (eat h))) (x h) (y h) = false /\
     hunger (snd (eat h)) = Z.max 0 (hunger h - 50) /\
     (x (snd (eat h)), y (snd (eat h))) = (x h, y h) /\
     alive (snd (eat h)) = alive h /\
     (forall ops : list op,
        has_food_at (world (run_ops ops (snd (eat h)))) (x h) (y h) = false)
   else
     eat h = ((false, "No food here to eat"), h) /\
     eat (snd (eat h)) = eat h).
Proof.
  destruct (has_food_at (world h) (x h) (y h)) eqn:F.
  - assert (G : has_food_at (world (snd (eat h))) (x h) (y h) = false).
    { unfold eat. rewrite F. cbn. unfold has_food_at. cbn.
      apply bool_decide_eq_false. set_solver. }
    unfold eat in *. rewrite F in *. cbn -[has_food_at] in *.
    repeat split; try assumption.
    intros ops. destruct (run_ops_frame ops
      (log_action
         (set_hunger (set_world h (remove_food_at (world h) (x h) (y h)))
            (Z.max 0 (hunger h - 50))) "EAT"
         (String.append "Ate food at "
            (String.append (str_of_pos (x h) (y h))
               (String.append ". Hunger now: "
                  (str_of_Z (Z.max 0 (hunger h - 50)))))))) as (_ & _ & _ & S).
    eapply has_food_at_subset; [exact S | exact G].
  - unfold eat. rewrite F. cbn. rewrite F. auto.
Qed.

(** C7: [move_toward] fails with "Already here" and changes nothing when
    the target is the current cell; otherwise it is exactly one [move] in
    the direction of the spec's axis choice.  Scenario D: from (3, 3) with
    food at (3, 1) only, [look_around 4] sees (3, 1) and [move_toward]
    moves north to (3, 2). *)
Theorem move_toward_contract (h : Herald) (tx ty : Z) :
  (if (tx - x h =? 0) && (ty - y h =? 0)
   then move_toward h tx ty = (Some (false, "Already here"), h)
   else move_toward h tx ty =
          (Some (fst (move h (spec_toward_direction (tx - x h) (ty - y h)))),
           snd (move h (spec_toward_direction (tx - x h) (ty - y h))))) /\
  (look_around (new_herald (world10 [(3, 1)]) 3 3) 4 = Some (3, 1) /\
   fst (move_toward (new_herald (world10 [(3, 1)]) 3 3) 3 1) = Some (true, "Moved north") /\
   snd (move_toward (new_herald (world10 [(3, 1)]) 3 3) 3 1) =
     snd (move (new_herald (world10 [(3, 1)]) 3 3) "north") /\
   (x (snd (move_toward (new_herald (world10 [(3, 1)]) 3 3) 3 1)),
    y (snd (move_toward (new_herald (world10 [(3, 1)]) 3 3) 3 1))) = (3, 2)).
Proof.
  split; [| vm_compute; repeat split].
  unfold move_toward, spec_toward_direction.
  repeat match goal with
  | |- context [if ?b then _ else _] => destruct b eqn:?
  end; cbn [andb orb negb] in *;
  repeat match goal with
  | H : (_ && _) = true |- _ => apply andb_true_iff in H as [? ?]
  | H : (_ && _) = false |- _ => apply andb_false_iff in H as [? | ?]
  | H : (_ || _) = true |- _ => apply orb_true_iff in H as [? | ?]
  | H : (_ || _) = false |- _ => apply orb_false_iff in H as [? ?]
  | H : negb _ = true |- _ => apply Bool.negb_true_iff in H
  | H : negb _ = false |- _ => apply Bool.negb_false_iff in H
  end; zbool;
  first [reflexivity | destruct (move h _); reflexivity | exfalso; lia].
Qed.

(* ------------------------------------------------------------------ *)
(** ** tick and death *)

(** C8: on any living Herald whose rate is 5 (the constructor's rate,
    which no operation changes) a tick adds exactly 5 to hunger; when the
    sum reaches or exceeds 100 hunger is clamped to 100, the Herald dies
    and one DIED entry is appended.  Twenty ticks from hunger 0
    (Scenario A) give hunger 100, death, and exactly one DIED entry.  No
    other operation changes [alive]. *)
Theorem tick_contract (h : Herald) :
  alive h = true -> hunger_rate h = 5 ->
  (if 100 <=? hunger h + 5 then
     hunger (tick h) = 100 /\ alive (tick h) = false /\
     exists e, entry_type e = "DIED" /\
       actions_taken (tick h) = keep_last_20 (actions_taken h ++ [e])
   else
     hunger (tick h) = hunger h + 5 /\ alive (tick h) = true /\
     actions_taken (tick h) = actions_taken h) /\
  (forall (w : World) (x0 y0 : Z) (ops : list op),
     hunger_rate (run_ops ops (new_herald w x0 y0)) = 5) /\
  (hunger (scenario_A 20) = 100 /\ alive (scenario_A 20) = false /\
   length (filter (fun e => String.eqb (entry_type e) "DIED")
                  (actions_taken (scenario_A 20))) = 1%nat) /\
  (forall (h' : Herald) (d : string) (tx ty : Z),
     alive (snd (move h' d)) = alive h' /\ alive (snd (eat h')) = alive h' /\
     alive (wait h') = alive h' /\ alive (snd (move_toward h' tx ty)) = alive h').
Proof.
  intros A R.
  split; [| split; [| split; [vm_compute; auto |]]].
  - unfold tick. rewrite A. cbn [hunger set_hunger]. rewrite R.
    destruct (100 <=? _); repeat split; auto. eexists; split; [| reflexivity]; reflexivity.
  - intros w x0 y0 ops.
    destruct (run_ops_frame ops (new_herald w x0 y0)) as (_ & _ & R' & _).
    exact R'.
  - intros h' d tx ty. rewrite move_alive, eat_alive, move_toward_alive.
    repeat split.
Qed.

(** A living Herald at hunger 97: the tick overshoots to 102. *)
Definition herald_at_97 : Herald := set_hunger (new_herald (world10 []) 5 5) 97.

Lemma tick_contract_witness :
  alive herald_at_97 = true /\ hunger_rate herald_at_97 = 5 /\
  (if 100 <=? hunger herald_at_97 + 5 then
     hunger (tick herald_at_97) = 100 /\ alive (tick herald_at_97) = false /\
     exists e, entry_type e = "DIED" /\
       actions_taken (tick herald_at_97) =
         keep_last_20 (actions_taken herald_at_97 ++ [e])
   else
     hunger (tick herald_at_97) = hunger herald_at_97 + 5 /\
     alive (tick herald_at_97) = true /\
     actions_taken (tick herald_at_97) = actions_taken herald_at_97).
Proof.
  split; [reflexivity | split; [reflexivity |]].
  apply (tick_contract herald_at_97); reflexivity.
Defined.

(** C2, counterexample: [move] and [eat] do not look at [alive].  The
    Herald of Scenario A, dead after 20 ticks at (5, 5), still moves north
    to (5, 4), and there still eats the food and lowers its hunger. *)
Lemma dead_herald_still_acts :
  alive (Nat.iter 20 tick (new_herald (world10 [(5, 4)]) 5 5)) = false /\
  y (Nat.iter 20 tick (new_herald (world10 [(5, 4)]) 5 5)) = 5 /\
  y (snd (move (Nat.iter 20 tick (new_herald (world10 [(5, 4)]) 5 5)) "north")) = 4 /\
  hunger (snd (eat (snd (move (Nat.iter 20 tick
            (new_herald (world10 [(5, 4)]) 5 5)) "north")))) = 50 /\
  has_food_at (world (snd (eat (snd (move (Nat.iter 20 tick
            (new_herald (world10 [(5, 4)]) 5 5)) "north"))))) 5 4 = false.
Proof. vm_compute. repeat split. Qed.

(** C2, as the code has it: a dead Herald's tick changes nothing and no
    operation (tick, move, eat, wait, move_toward) revives it, but [move],
    [eat] and [wait] ignore [alive]: on a dead Herald they change position,
    hunger and food exactly as on a living Herald in the same state
    ([wait] changes none of them).  Only the loop of [Game.run] keeps a
    dead Herald from acting: with a dead Herald it runs no pass at all,
    and a pass that lets the loop go on always leaves a living Herald
    (the one that did not die, or the fresh one of [reset_world]). *)
Theorem dead_herald_ops (h : Herald) :
  alive h = false ->
  tick h = h /\
  (forall d : string,
     alive (snd (move h d)) = false /\
     core (snd (move h d)) = core (snd (move (set_alive h true) d))) /\
  (alive (snd (eat h)) = false /\
   core (snd (eat h)) = core (snd (eat (set_alive h true)))) /\
  (alive (wait h) = false /\ core (wait h) = core h) /\
  (forall tx ty : Z, alive (snd (move_toward h tx ty)) = false) /\
  (forall (Rng : Type) (randint : Z -> Z -> Rng -> Z * Rng)
          (randbelow : Z -> Rng -> Z * Rng) (random53 : Rng -> Z * Rng)
          (g : Game) (inputs : list TurnInput) (r : Rng),
     gherald g = h ->
     run_loop Rng randint randbelow random53 inputs g r = (g, r)) /\
  (forall (Rng : Type) (randint : Z -> Z -> Rng -> Z * Rng)
          (randbelow : Z -> Rng -> Z * Rng) (random53 : Rng -> Z * Rng)
          (g g' : Game) (i : TurnInput) (r r' : Rng),
     run_turn Rng randint randbelow random53 g i r = (g', r', true) ->
     alive (gherald g') = true).
Proof.
  intros A. split; [unfold tick; rewrite A; reflexivity |].
  split; [| split; [| split; [| split; [| split]]]].
  - intros d. rewrite move_alive. split; [exact A |].
    unfold move, core.
    destruct (String.eqb d "north"), (String.eqb d "south"),
             (String.eqb d "east"), (String.eqb d "west");
      cbn -[is_valid_position]; try reflexivity;
      destruct (is_valid_position _ _ _); reflexivity.
  - rewrite eat_alive. split; [exact A |].
    unfold eat, core. cbn -[has_food_at].
    destruct (has_food_at _ _ _); reflexivity.
  - split; [exact A | reflexivity].
  - intros tx ty. rewrite move_toward_alive. exact A.
  - intros Rng randint randbelow random53 g inputs r G.
    destruct inputs as [| i rest]; [reflexivity |].
    cbn [run_loop]. rewrite G, A, andb_false_r. reflexivity.
  - intros Rng randint randbelow random53 g g' i r r' T.
    unfold run_turn in T.
    destruct (turn_action Rng randint randbelow random53 g i r) as [g1 r1].
    cbn [gherald alive] in T.
    destruct (alive (tick (gherald g1))) eqn:E; cbn in T.
    + injection T as <- _. exact E.
    + destruct (_ || _); [| discriminate].
      unfold reset_world in T.
      destruct (new_world Rng randint 10 10 r1) as [w r2].
      injection T as <- _. reflexivity.
Qed.

Lemma dead_herald_ops_witness :
  alive (scenario_A 20) = false /\
  tick (scenario_A 20) = scenario_A 20 /\
  (forall d : string,
     alive (snd (move (scenario_A 20) d)) = false /\
     core (snd (move (scenario_A 20) d)) =
       core (snd (move (set_alive (scenario_A 20) true) d))) /\
  (alive (snd (eat (scenario_A 20))) = false /\
   core (snd (eat (scenario_A 20))) =
     core (snd (eat (set_alive (scenario_A 20) true)))) /\
  (alive (wait (scenario_A 20)) = false /\
   core (wait (scenario_A 20)) = core (scenario_A 20)) /\
  (forall tx ty : Z, alive (snd (move_toward (scenario_A 20) tx ty)) = false) /\
  (forall (Rng : Type) (randint : Z -> Z -> Rng -> Z * Rng)
          (randbelow : Z -> Rng -> Z * Rng) (random53 : Rng -> Z * Rng)
          (g : Game) (inputs : list TurnInput) (r : Rng),
     gherald g = scenario_A 20 ->
     run_loop Rng randint randbelow random53 inputs g r = (g, r)) /\
  (forall (Rng : Type) (randint : Z -> Z -> Rng -> Z * Rng)
          (randbelow : Z -> Rng -> Z * Rng) (random53 : Rng -> Z * Rng)
          (g g' : Game) (i : TurnInput) (r r' : Rng),
     run_turn Rng randint randbelow random53 g i r = (g', r', true) ->
     alive (gherald g') = true).
Proof.
  split; [vm_compute; reflexivity|].
  apply dead_herald_ops. vm_compute. reflexivity.
Defined.

(* ------------------------------------------------------------------ *)
(** ** Perception and the autonomous policy *)

(** C1 (defect): [look_around] scans the square [-r..r] x [-r..r] and
    never compares the Manhattan distance with [vision_range], so with
    vision range 1 it reports food at Manhattan distance 2. *)
Theorem look_around_beyond_range :
  food_locations (world10 [(6, 6)]) = {[ (6, 6) ]} /\
  look_around (new_herald (world10 [(6, 6)]) 5 5) 1 = Some (6, 6) /\
  Z.abs (6 - 5) + Z.abs (6 - 5) = 2.
Proof. split; [set_solver | split; [vm_compute; reflexivity | reflexivity]]. Qed.

(** C9: with food under the Herald and hunger above 30, the autonomous
    decision is the [eat] operation (which succeeds), whatever the random
    source: no random draw is made, and no move or rest happens. *)
Theorem auto_decide_rule1 (Rng : Type) (randbelow : Z -> Rng -> Z * Rng)
    (random53 : Rng -> Z * Rng) (r : Rng) (h : Herald) :
  has_food_at (world h) (x h) (y h) = true -> 30 < hunger h ->
  herald_auto_decide Rng randbelow random53 r h = (snd (eat h), r) /\
  fst (fst (eat h)) = true.
Proof.
  intros F H. unfold herald_auto_decide, get_status. cbn [st_sees_food st_hunger].
  rewrite F. apply Z.ltb_lt in H. rewrite H. cbn [andb].
  split; [reflexivity |]. unfold eat. rewrite F. reflexivity.
Qed.

(** Scenario E: (3, 3), hunger 50, food at (3, 3), with a counter as the
    random source. *)
Lemma auto_decide_rule1_witness :
  has_food_at (world (set_hunger (new_herald (world10 [(3, 3)]) 3 3) 50)) 3 3 = true /\
  30 < hunger (set_hunger (new_herald (world10 [(3, 3)]) 3 3) 50) /\
  herald_auto_decide nat (fun n k => (n - 1, S k)) (fun k => (Z.of_nat k, S k)) 0%nat
      (set_hunger (new_herald (world10 [(3, 3)]) 3 3) 50) =
    (snd (eat (set_hunger (new_herald (world10 [(3, 3)]) 3 3) 50)), 0%nat) /\
  fst (fst (eat (set_hunger (new_herald (world10 [(3, 3)]) 3 3) 50))) = true.
Proof.
  split; [reflexivity|]. split; [cbn; lia|].
  apply (auto_decide_rule1 nat (fun n k => (n - 1, S k)) (fun k => (Z.of_nat k, S k)) 0%nat
           (set_hunger (new_herald (world10 [(3, 3)]) 3 3) 50));
    [reflexivity | cbn; lia].
Defined.


(* ------------------------------------------------------------------ *)
(** ** Further properties of the code *)

(** Every food location of [w] is a valid position of [w]. *)
Definition food_in_bounds (w : World) : Prop :=
  forall p, p ∈ food_locations w -> is_valid_position w p.1 p.2 = true.

Lemma spawn_loop_inv (Rng : Type) (randint : Z -> Z -> Rng -> Z * Rng)
    (Hr : forall a b r, a <= b -> a <= fst (randint a b r) <= b)
    (n : nat) (w : World) (r : Rng) :
  1 <= width w -> 1 <= height w -> food_in_bounds w ->
  width (fst (spawn_loop Rng randint n w r)) = width w /\
  height (fst (spawn_loop Rng randint n w r)) = height w /\
  food_in_bounds (fst (spawn_loop Rng randint n w r)) /\
  food_locations w ⊆ food_locations (fst (spawn_loop Rng randint n w r)) /\
  (size (food_locations (fst (spawn_loop Rng randint n w r)))
     <= size (food_locations w) + n)%nat /\
  (n <> 0%nat -> food_locations (fst (spawn_loop Rng randint n w r)) ≠ ∅).
Proof.
  revert w r. induction n as [| n IH]; intros w r W H F.
  - cbn. repeat split; auto; first [set_solver | lia | intros; congruence].
  - cbn [spawn_loop].
    destruct (randint 0 (width w - 1) r) as [fx r1] eqn:E1.
    destruct (randint 0 (height w - 1) r1) as [fy r2] eqn:E2.
    pose proof (Hr 0 (width w - 1) r ltac:(lia)) as B1. rewrite E1 in B1.
    pose proof (Hr 0 (height w - 1) r1 ltac:(lia)) as B2. rewrite E2 in B2.
    cbn in B1, B2.
    set (w' := mkWorld (width w) (height w) (food_locations w ∪ {[(fx, fy)]})).
    assert (F' : food_in_bounds w').
    { intros p Hp. cbn in Hp. apply elem_of_union in Hp as [Hp | Hp].
      - apply F in Hp. exact Hp.
      - apply elem_of_singleton in Hp. subst p. unfold is_valid_position. cbn.
        rewrite !andb_true_iff. repeat split; zbool_goal; lia. }
    destruct (IH w' r2 W H F') as (IW & IH' & IF & IS & ISz & _).
    cbn in IW, IH', IS, ISz.
    repeat split; auto.
    + set_solver.
    + rewrite ISz.
      assert (size (food_locations w ∪ {[(fx, fy)]}) <= size (food_locations w) + 1)%nat.
      { rewrite size_union_alt, size_difference_alt.
        rewrite size_singleton. lia. }
      lia.
    + intros _ Hemp. apply (elem_of_empty (C := gset (Z * Z)) (fx, fy)).
      rewrite <- Hemp. apply IS. set_solver.
Qed.

Lemma new_world_food_aux (Rng : Type) (randint : Z -> Z -> Rng -> Z * Rng)
    (Hr : forall a b r, a <= b -> a <= fst (randint a b r) <= b)
    (wd ht : Z) (r : Rng) :
  1 <= wd -> 1 <= ht ->
  width (fst (new_world Rng randint wd ht r)) = wd /\
  height (fst (new_world Rng randint wd ht r)) = ht /\
  food_in_bounds (fst (new_world Rng randint wd ht r)) /\
  (1 <= size (food_locations (fst (new_world Rng randint wd ht r))) <= 8)%nat.
Proof.
  intros W H. unfold new_world, spawn_initial_food.
  destruct (spawn_loop_inv Rng randint Hr 8 (mkWorld wd ht ∅) r W H)
    as (IW & IH & IF & _ & ISz & INe); [intros p Hp; set_solver |].
  cbn in IW, IH, ISz. rewrite size_empty in ISz.
  repeat split; auto.
  destruct (size (food_locations (fst (spawn_loop Rng randint 8 (mkWorld wd ht ∅) r))))
    eqn:E; [| lia].
  exfalso. apply INe; [discriminate |].
  apply leibniz_equiv, size_empty_inv, E.
Qed.

(** [World.__init__] spawns between one and eight food items, all inside
    the world, whenever [random.randint(a, b)] returns a value of [a..b]. *)
Theorem new_world_food (Rng : Type) (randint : Z -> Z -> Rng -> Z * Rng)
    (Hr : forall a b r, a <= b -> a <= fst (randint a b r) <= b)
    (wd ht : Z) (r : Rng) :
  1 <= wd -> 1 <= ht ->
  width (fst (new_world Rng randint wd ht r)) = wd /\
  height (fst (new_world Rng randint wd ht r)) = ht /\
  food_in_bounds (fst (new_world Rng randint wd ht r)) /\
  (1 <= size (food_locations (fst (new_world Rng randint wd ht r))) <= 8)%nat.
Proof. apply new_world_food_aux, Hr. Qed.

(** The random source of the witnesses: a counter, [randint a b] is [a]. *)
Definition counter_randint (a b : Z) (k : nat) : Z * nat := (a, S k).

Lemma new_world_food_witness :
  (forall a b r, a <= b -> a <= fst (counter_randint a b r) <= b) /\
  1 <= 10 /\ 1 <= 10 /\
  width (fst (new_world nat counter_randint 10 10 0%nat)) = 10 /\
  height (fst (new_world nat counter_randint 10 10 0%nat)) = 10 /\
  food_in_bounds (fst (new_world nat counter_randint 10 10 0%nat)) /\
  (1 <= size (food_locations (fst (new_world nat counter_randint 10 10 0%nat))) <= 8)%nat.
Proof.
  assert (Hr : forall a b r, a <= b -> a <= fst (counter_randint a b r) <= b).
  { intros a b r L. cbn. lia. }
  split; [exact Hr |]. split; [lia |]. split; [lia |].
  apply (new_world_food nat counter_randint Hr 10 10 0%nat); lia.
Defined.

(** History bookkeeping: an operation keeps the history or logs one entry. *)
Definition hist_ok (h h' : Herald) : Prop :=
  actions_taken h' = actions_taken h \/
  exists e, actions_taken h' = keep_last_20 (actions_taken h ++ [e]).

Lemma keep_last_20_bound (l : list LogEntry) (e : LogEntry) :
  (length l <= 20)%nat -> (length (keep_last_20 (l ++ [e])) <= 20)%nat.
Proof.
  intros L. unfold keep_last_20. rewrite length_app. cbn [length].
  destruct (20 <? length l + 1)%nat eqn:E.
  - apply Nat.ltb_lt in E. destruct l as [| a l]; cbn in *; [lia |].
    rewrite length_app in *. cbn in *. lia.
  - apply Nat.ltb_ge in E. rewrite length_app. cbn. lia.
Qed.

Lemma step_op_hist (o : op) (h : Herald) : hist_ok h (step_op o h).
Proof.
  assert (Hm : forall d, hist_ok h (snd (move h d))).
  { intros d. unfold move.
    destruct (String.eqb d "north"), (String.eqb d "south"),
             (String.eqb d "east"), (String.eqb d "west");
      cbn -[is_valid_position keep_last_20]; try (left; reflexivity);
      destruct (is_valid_position _ _ _); cbn -[keep_last_20];
      first [left; reflexivity | right; eexists; reflexivity]. }
  destruct o as [| d | | | tx ty]; cbn [step_op].
  - unfold tick. destruct (alive h); [| left; reflexivity].
    cbn -[keep_last_20]. destruct (100 <=? _);
      [right; eexists; reflexivity | left; reflexivity].
  - apply Hm.
  - unfold eat. destruct (has_food_at _ _ _); cbn -[keep_last_20];
      [right; eexists; reflexivity | left; reflexivity].
  - right; eexists; reflexivity.
  - destruct (move_toward_shape h tx ty) as [-> | (d & ->)];
      [left; reflexivity | apply Hm].
Qed.

(** [log_action] caps [actions_taken] at 20 entries: from a fresh Herald,
    after any sequence of operations the history has at most 20 entries. *)
Theorem history_bounded (w : World) (x0 y0 : Z) (ops : list op) :
  (length (actions_taken (run_ops ops (new_herald w x0 y0))) <= 20)%nat.
Proof.
  assert (G : forall h, (length (actions_taken h) <= 20)%nat ->
                (length (actions_taken (run_ops ops h)) <= 20)%nat).
  { induction ops as [| o ops IH]; intros h L; [exact L |].
    rewrite run_ops_cons. apply IH.
    destruct (step_op_hist o h) as [-> | (e & ->)];
      [exact L | apply keep_last_20_bound, L]. }
  apply G. cbn. lia.
Qed.

(** [log_action] on a history of at most 20 entries appends the new entry
    (with the current status) last, and drops exactly the oldest entry
    when the history was full. *)
Theorem log_action_evicts_oldest (h : Herald) (t d : string) :
  (length (actions_taken h) <= 20)%nat ->
  actions_taken (log_action h t d) =
    (if (length (actions_taken h) =? 20)%nat then tl (actions_taken h)
     else actions_taken h) ++ [mkEntry t d (get_status h)].
Proof.
  intros L. unfold log_action, keep_last_20. cbn [actions_taken set_actions].
  rewrite length_app. cbn [length].
  destruct (length (actions_taken h) =? 20)%nat eqn:E.
  - apply Nat.eqb_eq in E. rewrite E. cbn.
    destruct (actions_taken h); [discriminate | reflexivity].
  - apply Nat.eqb_neq in E.
    replace (20 <? length (actions_taken h) + 1)%nat with false; [reflexivity |].
    symmetry. apply Nat.ltb_ge. lia.
Qed.

Lemma log_action_evicts_oldest_witness :
  (length (actions_taken (Nat.iter 20 wait (new_herald (world10 []) 5 5))) <= 20)%nat /\
  actions_taken (log_action (Nat.iter 20 wait (new_herald (world10 []) 5 5)) "MOVE" "m") =
    (if (length (actions_taken (Nat.iter 20 wait (new_herald (world10 []) 5 5))) =? 20)%nat
     then tl (actions_taken (Nat.iter 20 wait (new_herald (world10 []) 5 5)))
     else actions_taken (Nat.iter 20 wait (new_herald (world10 []) 5 5))) ++
    [mkEntry "MOVE" "m" (get_status (Nat.iter 20 wait (new_herald (world10 []) 5 5)))].
Proof.
  split; [vm_compute; lia |].
  apply log_action_evicts_oldest. vm_compute. lia.
Defined.

(** *** The scan of [look_around] *)

Definition look_fold (h : Herald) (vision_range : Z) : option (Z * Z) * option Z :=
  fold_left
    (fun acc dx =>
       fold_left (fun acc' dy => look_step h acc' dx dy)
                 (zrange (- vision_range) (vision_range + 1)) acc)
    (zrange (- vision_range) (vision_range + 1))
    (None, None).

Lemma look_around_fold (h : Herald) (r : Z) : look_around h r = fst (look_fold h r).
Proof. reflexivity. Qed.

Lemma zrange_In (a b z : Z) : In z (zrange a b) <-> a <= z < b.
Proof.
  unfold zrange. rewrite in_map_iff. split.
  - intros (i & <- & Hi). apply in_seq in Hi. lia.
  - intros Hz. exists (Z.to_nat (z - a)). split; [lia |].
    apply in_seq. lia.
Qed.

Lemma fold_left_inv {A B : Type} (P : A -> Prop) (f : A -> B -> A) (l : list B) (a : A) :
  P a -> (forall a b, In b l -> P a -> P (f a b)) -> P (fold_left f l a).
Proof.
  revert a. induction l as [| b l IH]; intros a Pa Hf; [exact Pa |].
  cbn. apply IH; [apply Hf; [left; reflexivity | exact Pa] |].
  intros a' b' Hin. apply Hf. right. exact Hin.
Qed.


(** The loop invariant: the candidate is an in-bounds food cell of the
    scanned square, and [nearest_distance] is its Manhattan distance. *)
Definition look_inv (h : Herald) (r : Z) (acc : option (Z * Z) * option Z) : Prop :=
  match acc with
  | (None, None) => True
  | (Some (a, b), Some d) =>
      has_food_at (world h) a b = true /\ is_valid_position (world h) a b = true /\
      Z.abs (a - x h) <= r /\ Z.abs (b - y h) <= r /\
      d = Z.abs (a - x h) + Z.abs (b - y h)
  | _ => False
  end.

Lemma look_step_inv (h : Herald) (r dx dy : Z) acc :
  -r <= dx <= r -> -r <= dy <= r -> look_inv h r acc ->
  look_inv h r (look_step h acc dx dy).
Proof.
  intros Bx By I. unfold look_step.
  destruct (is_valid_position _ _ _) eqn:V; cbn [negb]; [| exact I].
  destruct (has_food_at _ _ _) eqn:F; [| exact I].
  destruct (lt_dist _ _); [| exact I].
  cbn. repeat split; auto; lia.
Qed.

Lemma look_fold_inv (h : Herald) (r : Z) : look_inv h r (look_fold h r).
Proof.
  unfold look_fold. apply fold_left_inv; [exact I |].
  intros acc dx Hdx I. apply zrange_In in Hdx.
  apply fold_left_inv; [exact I |].
  intros acc' dy Hdy I'. apply zrange_In in Hdy.
  apply look_step_inv; [lia | lia | exact I'].
Qed.

(** [look_around] only reports an in-bounds food cell whose offsets from
    the Herald are each at most [vision_range]. *)
Theorem look_around_sound (h : Herald) (r fx fy : Z) :
  look_around h r = Some (fx, fy) ->
  has_food_at (world h) fx fy = true /\ is_valid_position (world h) fx fy = true /\
  Z.abs (fx - x h) <= r /\ Z.abs (fy - y h) <= r.
Proof.
  rewrite look_around_fold. pose proof (look_fold_inv h r) as I.
  destruct (look_fold h r) as [[[a b] |] [d |]]; cbn in *; try contradiction;
    try discriminate.
  intros E. injection E as -> ->. tauto.
Qed.

Lemma look_around_sound_witness :
  look_around (new_herald (world10 [(3, 1)]) 3 3) 4 = Some (3, 1) /\
  has_food_at (world (new_herald (world10 [(3, 1)]) 3 3)) 3 1 = true /\
  is_valid_position (world (new_herald (world10 [(3, 1)]) 3 3)) 3 1 = true /\
  Z.abs (3 - x (new_herald (world10 [(3, 1)]) 3 3)) <= 4 /\
  Z.abs (1 - y (new_herald (world10 [(3, 1)]) 3 3)) <= 4.
Proof.
  split; [vm_compute; reflexivity |].
  apply look_around_sound. vm_compute. reflexivity.
Defined.






(** *** move_toward and the decision procedure *)

Lemma move_result (h : Herald) (d : string) :
  (fst (fst (move h d)) = false /\ snd (move h d) = h) \/
  (fst (fst (move h d)) = true /\
   world (snd (move h d)) = world h /\ hunger (snd (move h d)) = hunger h /\
   alive (snd (move h d)) = alive h /\
   is_valid_position (world h) (x (snd (move h d))) (y (snd (move h d))) = true /\
   ((d = "north" /\ x (snd (move h d)) = x h /\ y (snd (move h d)) = y h - 1) \/
    (d = "south" /\ x (snd (move h d)) = x h /\ y (snd (move h d)) = y h + 1) \/
    (d = "east" /\ x (snd (move h d)) = x h + 1 /\ y (snd (move h d)) = y h) \/
    (d = "west" /\ x (snd (move h d)) = x h - 1 /\ y (snd (move h d)) = y h))).
Proof.
  unfold move.
  destruct (String.eqb d "north") eqn:En; [apply String.eqb_eq in En |];
  [| destruct (String.eqb d "south") eqn:Es; [apply String.eqb_eq in Es |]];
  [| | destruct (String.eqb d "east") eqn:Ee; [apply String.eqb_eq in Ee |]];
  [| | | destruct (String.eqb d "west") eqn:Ew; [apply String.eqb_eq in Ew |]];
  cbn -[is_valid_position]; try (left; split; reflexivity);
  destruct (is_valid_position _ _ _) eqn:V; cbn -[is_valid_position];
  try (left; split; [reflexivity | destruct h; reflexivity]);
  right; repeat split; try assumption; tauto.
Qed.

(** Away from the target, [move_toward] is one [move] in the direction of
    a non-zero delta. *)
Lemma move_toward_dir (h : Herald) (tx ty : Z) :
  (tx - x h =? 0) && (ty - y h =? 0) = false ->
  exists d, move_toward h tx ty = (Some (fst (move h d)), snd (move h d)) /\
    ((d = "east" /\ 0 < tx - x h) \/ (d = "west" /\ tx - x h < 0) \/
     (d = "south" /\ 0 < ty - y h) \/ (d = "north" /\ ty - y h < 0)).
Proof.
  intros N. unfold move_toward. rewrite N.
  repeat match goal with
  | |- context [if ?b then _ else _] => destruct b eqn:?
  end; zbool;
  repeat match goal with
  | H : negb _ = true |- _ => apply Bool.negb_true_iff in H
  | H : negb _ = false |- _ => apply Bool.negb_false_iff in H
  end; zbool;
  try (apply andb_false_iff in N; destruct N as [N | N]; zbool; exfalso; lia);
  match goal with
  | |- exists d, (let '(_, _) := move h ?D in _) = _ /\ _ =>
      exists D; split; [destruct (move h D); reflexivity |];
      first [left; split; [reflexivity | lia]
            | right; left; split; [reflexivity | lia]
            | right; right; left; split; [reflexivity | lia]
            | right; right; right; split; [reflexivity | lia]]
  end.
Qed.

Lemma move_toward_progress_aux (h : Herald) (tx ty : Z) :
  match fst (move_toward h tx ty) with
  | Some (true, _) =>
      Z.abs (tx - x (snd (move_toward h tx ty))) + Z.abs (ty - y (snd (move_toward h tx ty)))
        + 1 = Z.abs (tx - x h) + Z.abs (ty - y h)
  | _ => snd (move_toward h tx ty) = h
  end.
Proof.
  destruct ((tx - x h =? 0) && (ty - y h =? 0)) eqn:Z0.
  - unfold move_toward. rewrite Z0. reflexivity.
  - destruct (move_toward_dir h tx ty Z0) as (d & -> & Hd). cbn [fst snd].
    pose proof (move_result h d) as R.
    destruct (move h d) as [[b m] h']. cbn in R |- *.
    destruct R as [(-> & ->) | (-> & _ & _ & _ & _ & Hm)]; [reflexivity |].
    destruct Hd as [(-> & L) | [(-> & L) | [(-> & L) | (-> & L)]]];
    destruct Hm as [(E & -> & ->) | [(E & -> & ->) | [(E & -> & ->) | (E & -> & ->)]]];
    try discriminate; lia.
Qed.

(** [move_toward] either moves the Herald one cell closer (in Manhattan
    distance) to the target, or, when it fails or the Herald is already
    there, changes nothing. *)
Theorem move_toward_progress (h : Herald) (tx ty : Z) :
  match fst (move_toward h tx ty) with
  | Some (true, _) =>
      Z.abs (tx - x (snd (move_toward h tx ty))) + Z.abs (ty - y (snd (move_toward h tx ty)))
        + 1 = Z.abs (tx - x h) + Z.abs (ty - y h)
  | _ => snd (move_toward h tx ty) = h
  end.
Proof. apply move_toward_progress_aux. Qed.

Lemma decide_shape (Rng : Type) (randbelow : Z -> Rng -> Z * Rng)
    (random53 : Rng -> Z * Rng) (r : Rng) (h : Herald) :
  (exists d, fst (herald_auto_decide Rng randbelow random53 r h) = snd (move h d)) \/
  fst (herald_auto_decide Rng randbelow random53 r h) = snd (eat h) \/
  (exists tx ty, fst (herald_auto_decide Rng randbelow random53 r h) =
                 snd (move_toward h tx ty)) \/
  fst (herald_auto_decide Rng randbelow random53 r h) = log_action h "WAIT" "Herald rested".
Proof.
  unfold herald_auto_decide.
  destruct (_ && _); [right; left; reflexivity |].
  destruct (40 <? _).
  - destruct (look_around h 2) as [[fx fy] |].
    + right; right; left. exists fx, fy. reflexivity.
    + destruct (random_choice Rng randbelow directions r) as [d r1].
      left. exists d. reflexivity.
  - destruct (random_lt_07 Rng random53 r) as [[] r1].
    + destruct (random_choice Rng randbelow directions r1) as [d r2].
      left. exists d. reflexivity.
    + right; right; right. reflexivity.
Qed.

Lemma move_one_cell (h : Herald) (d : string) :
  Z.abs (x (snd (move h d)) - x h) + Z.abs (y (snd (move h d)) - y h) <= 1 /\
  hunger (snd (move h d)) = hunger h.
Proof.
  destruct (move_result h d) as [(_ & ->) | (_ & _ & Hh & _ & _ & Hm)];
    [split; [lia | reflexivity] |].
  split; [| exact Hh].
  destruct Hm as [(_ & -> & ->) | [(_ & -> & ->) | [(_ & -> & ->) | (_ & -> & ->)]]];
    lia.
Qed.

(** One autonomous decision moves the Herald by at most one cell, never
    changes [alive], and either keeps hunger or lowers it as [eat] does. *)
Theorem auto_decide_one_step (Rng : Type) (randbelow : Z -> Rng -> Z * Rng)
    (random53 : Rng -> Z * Rng) (r : Rng) (h : Herald) :
  Z.abs (x (fst (herald_auto_decide Rng randbelow random53 r h)) - x h) +
  Z.abs (y (fst (herald_auto_decide Rng randbelow random53 r h)) - y h) <= 1 /\
  alive (fst (herald_auto_decide Rng randbelow random53 r h)) = alive h /\
  (hunger (fst (herald_auto_decide Rng randbelow random53 r h)) = hunger h \/
   hunger (fst (herald_auto_decide Rng randbelow random53 r h)) = Z.max 0 (hunger h - 50)).
Proof.
  destruct (decide_shape Rng randbelow random53 r h)
    as [(d & ->) | [-> | [(tx & ty & ->) | ->]]].
  - destruct (move_one_cell h d) as [M Hh]. rewrite move_alive. auto.
  - rewrite eat_alive. destruct (eat_shape h) as [-> | (_ & l & ->)]; cbn;
      repeat split; auto; lia.
  - rewrite move_toward_alive.
    destruct (move_toward_shape h tx ty) as [-> | (d & ->)];
      [repeat split; auto; lia |].
    destruct (move_one_cell h d) as [M Hh]. auto.
  - cbn. repeat split; auto; lia.
Qed.

Lemma valid_iff (w : World) (a b : Z) :
  is_valid_position w a b = true <-> 0 <= a < width w /\ 0 <= b < height w.
Proof.
  unfold is_valid_position. rewrite !andb_true_iff, !Z.leb_le, !Z.ltb_lt. tauto.
Qed.

Lemma move_in_bounds (h : Herald) (d : string) :
  ((d = "east" /\ is_valid_position (world h) (x h + 1) (y h) = true) \/
   (d = "west" /\ is_valid_position (world h) (x h - 1) (y h) = true) \/
   (d = "south" /\ is_valid_position (world h) (x h) (y h + 1) = true) \/
   (d = "north" /\ is_valid_position (world h) (x h) (y h - 1) = true)) ->
  fst (fst (move h d)) = true.
Proof.
  intros [(-> & V) | [(-> & V) | [(-> & V) | (-> & V)]]];
    unfold move; cbn -[is_valid_position]; rewrite V; reflexivity.
Qed.

(** Rule 2 of [herald_auto_decide]: a Herald inside the grid, hungrier
    than 40, with no food underfoot, that sees food at [(fx, fy)] within
    range 2, steps one cell closer to it (the move cannot be refused, as
    the food is inside the grid), and draws no random number. *)
Theorem auto_decide_approaches_food (Rng : Type) (randbelow : Z -> Rng -> Z * Rng)
    (random53 : Rng -> Z * Rng) (r : Rng) (h : Herald) (fx fy : Z) :
  is_valid_position (world h) (x h) (y h) = true ->
  has_food_at (world h) (x h) (y h) = false ->
  40 < hunger h ->
  look_around h 2 = Some (fx, fy) ->
  snd (herald_auto_decide Rng randbelow random53 r h) = r /\
  Z.abs (fx - x (fst (herald_auto_decide Rng randbelow random53 r h))) +
  Z.abs (fy - y (fst (herald_auto_decide Rng randbelow random53 r h))) + 1 =
  Z.abs (fx - x h) + Z.abs (fy - y h).
Proof.
  intros V F H L.
  assert (D : herald_auto_decide Rng randbelow random53 r h =
              (snd (move_toward h fx fy), r)).
  { unfold herald_auto_decide, get_status. cbn [st_sees_food st_hunger].
    rewrite F, L. cbn [andb]. apply Z.ltb_lt in H. rewrite H. reflexivity. }
  rewrite D. cbn [fst snd]. split; [reflexivity |].
  pose proof (look_fold_inv h 2) as I. rewrite look_around_fold in L.
  destruct (look_fold h 2) as [[[a b] |] [d |]]; cbn in I, L; try contradiction;
    try discriminate.
  injection L as -> ->. destruct I as (Ff & Vf & _ & _ & _).
  assert (Z0 : (fx - x h =? 0) && (fy - y h =? 0) = false).
  { destruct (fx - x h =? 0) eqn:E1, (fy - y h =? 0) eqn:E2; try reflexivity.
    zbool. replace fx with (x h) in Ff by lia. replace fy with (y h) in Ff by lia.
    congruence. }
  pose proof (move_toward_progress_aux h fx fy) as P.
  destruct (move_toward_dir h fx fy Z0) as (dir & E & Hd).
  assert (S : fst (fst (move h dir)) = true).
  { apply move_in_bounds. apply valid_iff in V, Vf.
    destruct Hd as [(-> & Ld) | [(-> & Ld) | [(-> & Ld) | (-> & Ld)]]];
      [left | right; left | right; right; left | right; right; right];
      (split; [reflexivity | apply valid_iff; lia]). }
  rewrite E in P |- *. cbn [fst snd] in P |- *.
  destruct (move h dir) as [[b m] h']. cbn in S, P |- *. subst b. exact P.
Qed.

Lemma auto_decide_approaches_food_witness :
  is_valid_position (world (set_hunger (new_herald (world10 [(4, 4)]) 3 3) 50)) 3 3 = true /\
  has_food_at (world (set_hunger (new_herald (world10 [(4, 4)]) 3 3) 50)) 3 3 = false /\
  40 < hunger (set_hunger (new_herald (world10 [(4, 4)]) 3 3) 50) /\
  look_around (set_hunger (new_herald (world10 [(4, 4)]) 3 3) 50) 2 = Some (4, 4) /\
  snd (herald_auto_decide nat (fun n k => (0, S k)) (fun k => (0, S k)) 0%nat
         (set_hunger (new_herald (world10 [(4, 4)]) 3 3) 50)) = 0%nat /\
  Z.abs (4 - x (fst (herald_auto_decide nat (fun n k => (0, S k)) (fun k => (0, S k)) 0%nat
                      (set_hunger (new_herald (world10 [(4, 4)]) 3 3) 50)))) +
  Z.abs (4 - y (fst (herald_auto_decide nat (fun n k => (0, S k)) (fun k => (0, S k)) 0%nat
                      (set_hunger (new_herald (world10 [(4, 4)]) 3 3) 50)))) + 1 =
  Z.abs (4 - x (set_hunger (new_herald (world10 [(4, 4)]) 3 3) 50)) +
  Z.abs (4 - y (set_hunger (new_herald (world10 [(4, 4)]) 3 3) 50)).
Proof.
  split; [reflexivity |]. split; [vm_compute; reflexivity |].
  split; [cbn; lia |]. split; [vm_compute; reflexivity |].
  apply auto_decide_approaches_food;
    [reflexivity | vm_compute; reflexivity | cbn; lia | vm_compute; reflexivity].
Defined.

(** *** The session *)

(** What holds of the Herald throughout a session of [Game.run]. *)
Definition herald_inv (h : Herald) : Prop :=
  width (world h) = 10 /\ height (world h) = 10 /\ food_in_bounds (world h) /\
  is_valid_position (world h) (x h) (y h) = true /\
  0 <= hunger h <= 100 /\ hunger_rate h = 5 /\
  (length (actions_taken h) <= 20)%nat.

Lemma food_in_bounds_shrink (w w' : World) :
  width w' = width w -> height w' = height w ->
  food_locations w' ⊆ food_locations w -> food_in_bounds w -> food_in_bounds w'.
Proof.
  intros W H S F p Hp. apply S, F in Hp. unfold is_valid_position in *.
  rewrite W, H. exact Hp.
Qed.

Lemma herald_inv_step (o : op) (h : Herald) : herald_inv h -> herald_inv (step_op o h).
Proof.
  intros (W & H & F & V & Hg & R & L).
  destruct (step_op_frame o h) as (W' & H' & R' & S').
  pose proof (step_op_valid o h V) as V'.
  pose proof (step_op_hunger o h R Hg) as Hg'.
  repeat split; try lia.
  - eapply food_in_bounds_shrink; eauto.
  - exact V'.
  - destruct (step_op_hist o h) as [-> | (e & ->)]; [exact L | apply keep_last_20_bound, L].
Qed.

Lemma herald_inv_log (h : Herald) (t d : string) :
  herald_inv h -> herald_inv (log_action h t d).
Proof.
  intros (W & H & F & V & Hg & R & L).
  unfold herald_inv, log_action, set_actions. cbn -[keep_last_20 is_valid_position].
  repeat split; try assumption; try lia. apply keep_last_20_bound, L.
Qed.

Lemma herald_inv_decide (Rng : Type) (randbelow : Z -> Rng -> Z * Rng)
    (random53 : Rng -> Z * Rng) (r : Rng) (h : Herald) :
  herald_inv h -> herald_inv (fst (herald_auto_decide Rng randbelow random53 r h)).
Proof.
  intros I.
  destruct (decide_shape Rng randbelow random53 r h)
    as [(d & ->) | [-> | [(tx & ty & ->) | ->]]].
  - apply (herald_inv_step (OpMove d)), I.
  - apply (herald_inv_step OpEat), I.
  - apply (herald_inv_step (OpMoveToward tx ty)), I.
  - apply herald_inv_log, I.
Qed.

Lemma herald_inv_fresh (Rng : Type) (randint : Z -> Z -> Rng -> Z * Rng)
    (Hr : forall a b r, a <= b -> a <= fst (randint a b r) <= b) (r : Rng) :
  herald_inv (new_herald (fst (new_world Rng randint 10 10 r)) 5 5).
Proof.
  destruct (new_world_food_aux Rng randint Hr 10 10 r) as (W & H & F & _); try lia.
  unfold herald_inv. cbn [world x y hunger hunger_rate actions_taken new_herald].
  repeat split; auto; try lia; [apply valid_iff; rewrite W, H; lia | cbn; lia].
Qed.

Definition game_inv (g : Game) : Prop := herald_inv (gherald g) /\ 0 <= tick_count g.

Lemma reset_world_eq (Rng : Type) (randint : Z -> Z -> Rng -> Z * Rng) (g : Game) (r : Rng) :
  fst (reset_world Rng randint g r) =
  mkGame (running g) false (step_mode g) 0
         (new_herald (fst (new_world Rng randint 10 10 r)) 5 5).
Proof. unfold reset_world. destruct (new_world Rng randint 10 10 r); reflexivity. Qed.

Ltac split_commands :=
  repeat match goal with
  | |- context [if String.eqb ?a ?b then _ else _] => destruct (String.eqb a b) eqn:?
  end.

Lemma process_command_inv (Rng : Type) (randint : Z -> Z -> Rng -> Z * Rng)
    (Hr : forall a b r, a <= b -> a <= fst (randint a b r) <= b)
    (g : Game) (parts : list string) (r : Rng) :
  game_inv g -> game_inv (fst (process_command Rng randint g parts r)).
Proof.
  intros [I T]. unfold process_command.
  destruct parts as [| cmd rest]; [split; assumption |].
  split_commands; try (split; assumption);
    try (rewrite reset_world_eq; split; [apply herald_inv_fresh, Hr | cbn; lia]).
  - destruct rest as [| d rest]; [split; assumption |].
    split; [apply (herald_inv_step (OpMove d)), I | exact T].
  - split; [apply (herald_inv_step OpEat), I | exact T].
  - split; [apply herald_inv_log, I | exact T].
Qed.

Lemma run_turn_inv (Rng : Type) (randint : Z -> Z -> Rng -> Z * Rng)
    (randbelow : Z -> Rng -> Z * Rng) (random53 : Rng -> Z * Rng)
    (Hr : forall a b r, a <= b -> a <= fst (randint a b r) <= b)
    (g : Game) (i : TurnInput) (r : Rng) :
  game_inv g ->
  game_inv (fst (fst (run_turn Rng randint randbelow random53 g i r))).
Proof.
  intros G.
  assert (A : game_inv (fst (turn_action Rng randint randbelow random53 g i r))).
  { destruct G as [I T]. unfold turn_action.
    destruct (auto_mode g); [| destruct (step_mode g)].
    - destruct (in_stop_key i); [split; assumption |].
      pose proof (herald_inv_decide Rng randbelow random53 r (gherald g) I) as D.
      destruct (herald_auto_decide Rng randbelow random53 r (gherald g)).
      split; assumption.
    - destruct (String.eqb (in_step_line i) "stop"); [split; assumption |].
      pose proof (herald_inv_decide Rng randbelow random53 r (gherald g) I) as D.
      destruct (herald_auto_decide Rng randbelow random53 r (gherald g)).
      split; assumption.
    - apply process_command_inv; [exact Hr | split; assumption]. }
  unfold run_turn.
  destruct (turn_action Rng randint randbelow random53 g i r) as [g1 r1].
  destruct A as [I1 T1]. cbn [fst] in I1, T1.
  destruct (negb _).
  - destruct (_ || _).
    + destruct (reset_world Rng randint _ r1) as [g3 r3] eqn:E.
      pose proof (reset_world_eq Rng randint
        (mkGame (running g1) (auto_mode g1) (step_mode g1) (tick_count g1 + 1)
                (tick (gherald g1))) r1) as E'.
      rewrite E in E'. cbn in E' |- *. subst g3.
      split; [apply herald_inv_fresh, Hr | cbn; lia].
    + split; [apply (herald_inv_step OpTick), I1 | cbn; lia].
  - split; [apply (herald_inv_step OpTick), I1 | cbn; lia].
Qed.

Lemma run_loop_inv (Rng : Type) (randint : Z -> Z -> Rng -> Z * Rng)
    (randbelow : Z -> Rng -> Z * Rng) (random53 : Rng -> Z * Rng)
    (Hr : forall a b r, a <= b -> a <= fst (randint a b r) <= b)
    (inputs : list TurnInput) (g : Game) (r : Rng) :
  game_inv g ->
  game_inv (fst (run_loop Rng randint randbelow random53 inputs g r)).
Proof.
  revert g r. induction inputs as [| i rest IH]; intros g r G; [exact G |].
  cbn [run_loop]. destruct (running g && alive (gherald g)); [| exact G].
  pose proof (run_turn_inv Rng randint randbelow random53 Hr g i r G) as G1.
  destruct (run_turn Rng randint randbelow random53 g i r) as [[g1 r1] []];
    [apply IH, G1 | exact G1].
Qed.

(** Throughout a session of [Game.run] (any inputs in any mode, any
    random draws, replays included), the world is 10x10 with all its food
    inside it, the Herald stands inside the world, its hunger stays in
    [0, 100], its history has at most 20 entries, and the tick counter is
    non-negative. *)
Theorem session_invariant (Rng : Type) (randint : Z -> Z -> Rng -> Z * Rng)
    (randbelow : Z -> Rng -> Z * Rng) (random53 : Rng -> Z * Rng)
    (Hr : forall a b r, a <= b -> a <= fst (randint a b r) <= b)
    (inputs : list TurnInput) (r : Rng) :
  herald_inv (gherald (fst (run_loop Rng randint randbelow random53 inputs
                              (fst (new_game Rng randint r)) (snd (new_game Rng randint r))))) /\
  0 <= tick_count (fst (run_loop Rng randint randbelow random53 inputs
                          (fst (new_game Rng randint r)) (snd (new_game Rng randint r)))).
Proof.
  apply run_loop_inv; [exact Hr |].
  unfold new_game. destruct (new_world Rng randint 10 10 r) as [w r1] eqn:E.
  pose proof (herald_inv_fresh Rng randint Hr r) as F. rewrite E in F.
  split; [exact F | cbn; lia].
Qed.

Lemma counter_randint_range :
  forall a b r, a <= b -> a <= fst (counter_randint a b r) <= b.
Proof. intros a b r L. cbn. lia. Qed.

(** A short session: auto mode for one pass, a stop key, a manual move. *)
Definition sample_inputs : list TurnInput :=
  [mkTurnInput false "" ["auto"] "no"; mkTurnInput false "" [] "no";
   mkTurnInput true "" [] "no"; mkTurnInput false "" ["move"; "north"] "yes"].

Lemma session_invariant_witness :
  (forall a b r, a <= b -> a <= fst (counter_randint a b r) <= b) /\
  herald_inv (gherald (fst (run_loop nat counter_randint
       (fun n k => (Z.of_nat k mod n, S k)) (fun k => (0, S k)) sample_inputs
       (fst (new_game nat counter_randint 0%nat)) (snd (new_game nat counter_randint 0%nat))))) /\
  0 <= tick_count (fst (run_loop nat counter_randint
       (fun n k => (Z.of_nat k mod n, S k)) (fun k => (0, S k)) sample_inputs
       (fst (new_game nat counter_randint 0%nat)) (snd (new_game nat counter_randint 0%nat)))).
Proof.
  split; [exact counter_randint_range |].
  apply session_invariant, counter_randint_range.
Defined.

(** [Game.reset_world] starts over: a living Herald at (5, 5) with hunger 0
    and an empty history, in a fresh 10x10 world holding one to eight
    in-bounds food items; the tick counter is 0 and auto mode is off, while
    [running] and step mode are kept as they were. *)
Theorem reset_world_fresh (Rng : Type) (randint : Z -> Z -> Rng -> Z * Rng)
    (Hr : forall a b r, a <= b -> a <= fst (randint a b r) <= b)
    (g : Game) (r : Rng) :
  running (fst (reset_world Rng randint g r)) = running g /\
  step_mode (fst (reset_world Rng randint g r)) = step_mode g /\
  auto_mode (fst (reset_world Rng randint g r)) = false /\
  tick_count (fst (reset_world Rng randint g r)) = 0 /\
  alive (gherald (fst (reset_world Rng randint g r))) = true /\
  hunger (gherald (fst (reset_world Rng randint g r))) = 0 /\
  actions_taken (gherald (fst (reset_world Rng randint g r))) = [] /\
  (x (gherald (fst (reset_world Rng randint g r))),
   y (gherald (fst (reset_world Rng randint g r)))) = (5, 5) /\
  width (world (gherald (fst (reset_world Rng randint g r)))) = 10 /\
  height (world (gherald (fst (reset_world Rng randint g r)))) = 10 /\
  food_in_bounds (world (gherald (fst (reset_world Rng randint g r)))) /\
  (1 <= size (food_locations (world (gherald (fst (reset_world Rng randint g r))))) <= 8)%nat.
Proof.
  rewrite reset_world_eq. cbn [running step_mode auto_mode tick_count gherald].
  destruct (new_world_food_aux Rng randint Hr 10 10 r) as (W & H & F & Sz); try lia.
  cbn [alive hunger actions_taken x y world new_herald].
  repeat split; auto; lia.
Qed.

Lemma reset_world_fresh_witness :
  (forall a b r, a <= b -> a <= fst (counter_randint a b r) <= b) /\
  running (fst (reset_world nat counter_randint (mkGame true true true 7 (scenario_A 20)) 0%nat)) = true /\
  step_mode (fst (reset_world nat counter_randint (mkGame true true true 7 (scenario_A 20)) 0%nat)) = true /\
  auto_mode (fst (reset_world nat counter_randint (mkGame true true true 7 (scenario_A 20)) 0%nat)) = false /\
  tick_count (fst (reset_world nat counter_randint (mkGame true true true 7 (scenario_A 20)) 0%nat)) = 0 /\
  alive (gherald (fst (reset_world nat counter_randint (mkGame true true true 7 (scenario_A 20)) 0%nat))) = true /\
  hunger (gherald (fst (reset_world nat counter_randint (mkGame true true true 7 (scenario_A 20)) 0%nat))) = 0 /\
  actions_taken (gherald (fst (reset_world nat counter_randint (mkGame true true true 7 (scenario_A 20)) 0%nat))) = [] /\
  (x (gherald (fst (reset_world nat counter_randint (mkGame true true true 7 (scenario_A 20)) 0%nat))),
   y (gherald (fst (reset_world nat counter_randint (mkGame true true true 7 (scenario_A 20)) 0%nat)))) = (5, 5) /\
  width (world (gherald (fst (reset_world nat counter_randint (mkGame true true true 7 (scenario_A 20)) 0%nat)))) = 10 /\
  height (world (gherald (fst (reset_world nat counter_randint (mkGame true true true 7 (scenario_A 20)) 0%nat)))) = 10 /\
  food_in_bounds (world (gherald (fst (reset_world nat counter_randint (mkGame true true true 7 (scenario_A 20)) 0%nat)))) /\
  (1 <= size (food_locations (world (gherald (fst (reset_world nat counter_randint
           (mkGame true true true 7 (scenario_A 20)) 0%nat))))) <= 8)%nat.
Proof.
  split; [exact counter_randint_range |].
  apply (reset_world_fresh nat counter_randint counter_randint_range
           (mkGame true true true 7 (scenario_A 20)) 0%nat).
Defined.

(** [Game.process_command] never advances the tick counter, never kills
    the Herald, and leaves the random generator alone, except [reset],
    which sets the counter to 0 and brings a living Herald; only [quit]
    stops the game; and a command whose first word is not [move], [eat],
    [wait] or [reset] (including an empty line) leaves the Herald as it
    was. *)
Theorem process_command_effects (Rng : Type) (randint : Z -> Z -> Rng -> Z * Rng)
    (g : Game) (parts : list string) (r : Rng) :
  running (fst (process_command Rng randint g parts r)) =
    (if String.eqb (hd "" parts) "quit" then false else running g) /\
  (if String.eqb (hd "" parts) "reset" then
     tick_count (fst (process_command Rng randint g parts r)) = 0 /\
     alive (gherald (fst (process_command Rng randint g parts r))) = true
   else
     tick_count (fst (process_command Rng randint g parts r)) = tick_count g /\
     alive (gherald (fst (process_command Rng randint g parts r))) = alive (gherald g) /\
     snd (process_command Rng randint g parts r) = r /\
     (existsb (String.eqb (hd "" parts)) ["move"; "eat"; "wait"] = false ->
      gherald (fst (process_command Rng randint g parts r)) = gherald g)).
Proof.
  unfold process_command.
  destruct parts as [| cmd rest]; cbn [hd existsb].
  { repeat split. }
  split_commands; cbn [existsb orb];
  repeat match goal with H : String.eqb _ _ = true |- _ => apply String.eqb_eq in H; subst end;
  cbn -[reset_world];
  try (rewrite reset_world_eq; cbn; repeat split; reflexivity);
  repeat split; try discriminate;
  try (destruct rest; cbn; first [reflexivity | apply move_alive]; fail);
  try apply eat_alive; try reflexivity.
Qed.

(** *** Starvation in manual play *)

(** A manual command that neither eats, resets, quits, nor leaves manual
    mode. *)
Definition plain_command (parts : list string) : bool :=
  negb (existsb (String.eqb (hd "" parts)) ["eat"; "reset"; "auto"; "step"; "quit"]).

(** A pass of the loop fed a plain command, whose answer to "Play again?"
    (if asked) does not restart the game. *)
Definition plain_turn (i : TurnInput) : Prop :=
  plain_command (in_command i) = true /\
  String.eqb (in_replay i) "yes" = false /\ String.eqb (in_replay i) "y;" = false.

Lemma plain_process_command (Rng : Type) (randint : Z -> Z -> Rng -> Z * Rng)
    (g : Game) (parts : list string) (r : Rng) :
  plain_command parts = true -> auto_mode g = false -> step_mode g = false ->
  running (fst (process_command Rng randint g parts r)) = running g /\
  auto_mode (fst (process_command Rng randint g parts r)) = false /\
  step_mode (fst (process_command Rng randint g parts r)) = false /\
  tick_count (fst (process_command Rng randint g parts r)) = tick_count g /\
  alive (gherald (fst (process_command Rng randint g parts r))) = alive (gherald g) /\
  hunger (gherald (fst (process_command Rng randint g parts r))) = hunger (gherald g) /\
  hunger_rate (gherald (fst (process_command Rng randint g parts r))) =
    hunger_rate (gherald g).
Proof.
  intros P A S. unfold plain_command, process_command in *.
  destruct parts as [| cmd rest]; [repeat split; assumption |].
  cbn [hd existsb] in P.
  split_commands; cbn [orb negb] in P; try discriminate;
  repeat match goal with H : String.eqb _ _ = true |- _ => apply String.eqb_eq in H; subst end;
  cbn; repeat split; try assumption.
  all: try (vm_compute in P; discriminate).
  all: destruct rest as [| d rest]; cbn; try assumption; try reflexivity;
    match goal with
    | |- context [move ?h ?d] =>
        first [apply move_alive | apply (proj2 (move_one_cell h d))
              | destruct (move_shape h d) as [-> | (x' & y' & l & -> & _)]; reflexivity]
    end.
Qed.

Lemma plain_run_turn (Rng : Type) (randint : Z -> Z -> Rng -> Z * Rng)
    (randbelow : Z -> Rng -> Z * Rng) (random53 : Rng -> Z * Rng)
    (g : Game) (i : TurnInput) (r : Rng) :
  plain_turn i -> auto_mode g = false -> step_mode g = false ->
  run_turn Rng randint randbelow random53 g i r =
    (mkGame (running (fst (process_command Rng randint g (in_command i) r)))
            (auto_mode (fst (process_command Rng randint g (in_command i) r)))
            (step_mode (fst (process_command Rng randint g (in_command i) r)))
            (tick_count (fst (process_command Rng randint g (in_command i) r)) + 1)
            (tick (gherald (fst (process_command Rng randint g (in_command i) r)))),
     snd (process_command Rng randint g (in_command i) r),
     alive (tick (gherald (fst (process_command Rng randint g (in_command i) r))))).
Proof.
  intros (_ & Ry1 & Ry2) Au St. unfold run_turn, turn_action. rewrite Au, St.
  destruct (process_command Rng randint g (in_command i) r) as [g1 r1]. cbn [fst snd].
  destruct (alive (tick (gherald g1))) eqn:A; cbn [gherald negb]; rewrite A;
    [reflexivity |]. rewrite Ry1, Ry2. reflexivity.
Qed.

Lemma plain_passes (Rng : Type) (randint : Z -> Z -> Rng -> Z * Rng)
    (randbelow : Z -> Rng -> Z * Rng) (random53 : Rng -> Z * Rng) (k : nat) :
  forall (inputs : list TurnInput) (g : Game) (r : Rng),
  (1 <= k)%nat -> (k <= length inputs)%nat -> Forall plain_turn inputs ->
  running g = true -> auto_mode g = false -> step_mode g = false ->
  alive (gherald g) = true -> hunger_rate (gherald g) = 5 ->
  hunger (gherald g) = 100 - 5 * Z.of_nat k ->
  tick_count (fst (run_loop Rng randint randbelow random53 inputs g r)) =
    tick_count g + Z.of_nat k /\
  alive (gherald (fst (run_loop Rng randint randbelow random53 inputs g r))) = false /\
  hunger (gherald (fst (run_loop Rng randint randbelow random53 inputs g r))) = 100.
Proof.
  induction k as [| k IH]; intros inputs g r K Len Pl Ru Au St Al Rt Hg; [lia |].
  destruct inputs as [| i rest]; [cbn in Len; lia |].
  inversion Pl as [| i' rest' Pi Pl']; subst i' rest'.
  cbn [run_loop]. rewrite Ru, Al. cbn [andb].
  rewrite (plain_run_turn Rng randint randbelow random53 g i r Pi Au St).
  destruct (plain_process_command Rng randint g (in_command i) r (proj1 Pi) Au St)
    as (Ru1 & Au1 & St1 & T1 & Al1 & Hg1 & Rt1).
  set (g1 := fst (process_command Rng randint g (in_command i) r)) in *.
  set (r1 := snd (process_command Rng randint g (in_command i) r)).
  destruct (tick_shape (gherald g1)) as [(A & _) | [(_ & L & E) | (_ & L & l & E)]];
    [congruence | |]; rewrite E; cbn [alive set_hunger set_alive set_actions].
  - rewrite Al1, Al.
    destruct k as [| k]; [rewrite Hg1, Rt1, Rt, Hg in L; lia |].
    destruct (IH rest
      (mkGame (running g1) (auto_mode g1) (step_mode g1) (tick_count g1 + 1)
              (set_hunger (gherald g1) (hunger (gherald g1) + hunger_rate (gherald g1)))) r1)
      as (T & A & H);
      cbn [running auto_mode step_mode tick_count gherald alive hunger hunger_rate set_hunger];
      try congruence.
    + lia.
    + cbn in Len. lia.
    + rewrite Hg1, Rt1, Rt, Hg. lia.
    + cbn [tick_count] in T. split; [lia | auto].
  - destruct k as [| k]; [| rewrite Hg1, Rt1, Rt, Hg in L; lia].
    cbn. repeat split; lia.
Qed.

(** [Game.run] in manual play: when no command eats, resets, quits or
    switches to auto or step mode, the Herald starves at the end of the
    20th pass of the loop (the tick counter reads 20, hunger 100), and,
    the answer to "Play again?" being neither "yes" nor "y;", the loop
    ends there whatever input follows. *)
Theorem manual_starvation (Rng : Type) (randint : Z -> Z -> Rng -> Z * Rng)
    (randbelow : Z -> Rng -> Z * Rng) (random53 : Rng -> Z * Rng)
    (inputs : list TurnInput) (r : Rng) :
  (20 <= length inputs)%nat -> Forall plain_turn inputs ->
  tick_count (fst (run_loop Rng randint randbelow random53 inputs
                     (fst (new_game Rng randint r)) (snd (new_game Rng randint r)))) = 20 /\
  alive (gherald (fst (run_loop Rng randint randbelow random53 inputs
                     (fst (new_game Rng randint r)) (snd (new_game Rng randint r))))) = false /\
  hunger (gherald (fst (run_loop Rng randint randbelow random53 inputs
                     (fst (new_game Rng randint r)) (snd (new_game Rng randint r))))) = 100.
Proof.
  intros Len Pl. unfold new_game.
  destruct (new_world Rng randint 10 10 r) as [w r1]. cbn [fst snd].
  destruct (plain_passes Rng randint randbelow random53 20 inputs
              (mkGame true false false 0 (new_herald w 5 5)) r1)
    as (T & A & H); cbn; try lia; try reflexivity; try assumption.
  split; [cbn in T; lia | auto].
Qed.

(** Twenty moves north, answering "y" to "Play again?". *)
Definition north_inputs : list TurnInput :=
  repeat (mkTurnInput false "" ["move"; "north"] "y") 25.

Lemma manual_starvation_witness :
  (20 <= length north_inputs)%nat /\ Forall plain_turn north_inputs /\
  tick_count (fst (run_loop nat counter_randint (fun n k => (0, S k)) (fun k => (0, S k))
       north_inputs (fst (new_game nat counter_randint 0%nat))
       (snd (new_game nat counter_randint 0%nat)))) = 20 /\
  alive (gherald (fst (run_loop nat counter_randint (fun n k => (0, S k)) (fun k => (0, S k))
       north_inputs (fst (new_game nat counter_randint 0%nat))
       (snd (new_game nat counter_randint 0%nat))))) = false /\
  hunger (gherald (fst (run_loop nat counter_randint (fun n k => (0, S k)) (fun k => (0, S k))
       north_inputs (fst (new_game nat counter_randint 0%nat))
       (snd (new_game nat counter_randint 0%nat))))) = 100.
Proof.
  assert (P : Forall plain_turn north_inputs).
  { apply List.Forall_forall. intros i Hi. apply repeat_spec in Hi. subst i.
    split; [reflexivity | split; reflexivity]. }
  split; [cbn; lia |]. split; [exact P |].
  apply manual_starvation; [cbn; lia | exact P].
Defined.
